(** * datapipe / revdatapipe: a two-connection TCP relay

    Shallow embedding of [src/revdatapipe.c] and [src/datapipe.c].

    Both programs are one [main]: check [argc], dial two endpoints in a
    [for] loop, then (after a [fork] in datapipe.c) run a [select]-driven
    copy loop over the two sockets.

    The C variables of [main] are a record ([locals]); the process is a
    state-and-early-return monad over a [machine] made of the locals, the
    descriptor table of the process and the trace of library and system
    calls issued so far.  What the operating system answers is read from an
    [oracle]; the part of the answer that the kernel contract fixes is
    written out in the system-call definitions:
    - [socket] hands out a descriptor that is not open at that moment (one
      that was closed may come back);
    - a call on a descriptor that is not open fails: [connect], [recv] and
      [send] return -1, [select] returns -1 when its set holds one;
    - [recv] delivers at most the requested count, [send] takes at most
      the offered count;
    - [send] is [write]: on a broken connection (the peer has reset it)
      the kernel raises SIGPIPE, which the programs leave at its default
      action, so the process is terminated inside the call (a process
      started with SIGPIPE ignored gets -1 there: the answer [SendErr]).

    The descriptors that are open when [main] starts are part of the
    environment as well.

    The build modelled is the non-Windows one ([recv] is [read], [send] is
    [write], the fork is compiled in), on a little-endian LP64 host.
    Messages are recorded without their final newline.

    Layout: the C library functions, the data, the machine and the system
    calls, the two programs ([Rev], [Dp]), the vocabulary of the
    statements; then the proofs. *)

From Stdlib Require Import String Ascii ZArith List Bool Lia.
From Stdlib Require Import Init.Byte.
Import ListNotations.

Local Open Scope Z_scope.

(* ===================================================================== *)
(** ** C library: [atol], the [unsigned short] cast, [htons]              *)
(* ===================================================================== *)

Module CLib.

(** [isspace] in the C locale: space, and \t \n \v \f \r (9..13). *)
Definition isspace (c : ascii) : bool :=
  let n := Z.of_N (N_of_ascii c) in
  (n =? 32) || ((9 <=? n) && (n <=? 13)).

Definition digit_of (c : ascii) : option Z :=
  let n := Z.of_N (N_of_ascii c) in
  if (48 <=? n) && (n <=? 57) then Some (n - 48) else None.

Fixpoint skip_space (s : string) : string :=
  match s with
  | String c r => if isspace c then skip_space r else s
  | EmptyString => s
  end.

(** The longest prefix of decimal digits, accumulated base 10. *)
Fixpoint digits (acc : Z) (s : string) : Z :=
  match s with
  | String c r =>
      match digit_of c with
      | Some d => digits (10 * acc + d) r
      | None => acc
      end
  | EmptyString => acc
  end.

(** [long] of an LP64 platform; [atol] is [strtol(s, NULL, 10)], which
    saturates. *)
Definition LONG_MAX : Z := 2 ^ 63 - 1.
Definition LONG_MIN : Z := - 2 ^ 63.

Definition atol (s : string) : Z :=
  match skip_space s with
  | String "-"%char r => Z.max LONG_MIN (- digits 0 r)
  | String "+"%char r => Z.min LONG_MAX (digits 0 r)
  | t => Z.min LONG_MAX (digits 0 t)
  end.

(** [(unsigned short) x]: reduction modulo 2^16. *)
Definition to_ushort (x : Z) : Z := x mod 65536.

(** [htons] on a little-endian host: the two bytes swapped. *)
Definition htons (x : Z) : Z :=
  Z.lor (Z.shiftl (Z.land x 255) 8) (Z.shiftr x 8).

Definition AF_INET : Z := 2.
Definition INADDR_NONE : Z := 4294967295.   (* 0xffffffff *)

End CLib.

Import CLib.

(* ===================================================================== *)
(** ** Data of [main]                                                     *)
(* ===================================================================== *)

(** [struct sockaddr_in], the three fields the program writes. *)
Record sockaddr_in := mk_sockaddr {
  sin_family : Z;
  sin_port : Z;      (* 16 bits, network order *)
  sin_addr : Z       (* s_addr, 32 bits, network order *)
}.

Definition zero_sockaddr : sockaddr_in := mk_sockaddr 0 0 0.   (* bzero *)

(** The automatic variables of [main].  [nbyt] and [closeneeded] are
    declared before the loop in revdatapipe.c and inside its body in
    datapipe.c; one slot each serves both. *)
Record locals := mk_locals {
  buf : list byte;            (* char buf[4096] *)
  dest : list sockaddr_in;    (* struct sockaddr_in dest[2] *)
  sockfd : list Z;            (* SOCKET sockfd[2] *)
  maxsock : Z;                (* SOCKET maxsock = 0 *)
  nbyt : Z;
  closeneeded : Z
}.

Definition BUFSZ : Z := 4096.   (* sizeof(buf) *)

(** Array cell update; an index outside the array leaves it unchanged (the
    program only uses the indices 0 and 1 of its two-cell arrays). *)
Fixpoint upd {A} (l : list A) (n : nat) (v : A) : list A :=
  match l, n with
  | [], _ => []
  | _ :: t, O => v :: t
  | h :: t, S n' => h :: upd t n' v
  end.

Definition set_buf (b : list byte) (v : locals) : locals :=
  mk_locals b (dest v) (sockfd v) (maxsock v) (nbyt v) (closeneeded v).
Definition set_dest (n : nat) (d : sockaddr_in) (v : locals) : locals :=
  mk_locals (buf v) (upd (dest v) n d) (sockfd v) (maxsock v) (nbyt v)
            (closeneeded v).
Definition set_sockfd (n : nat) (fd : Z) (v : locals) : locals :=
  mk_locals (buf v) (dest v) (upd (sockfd v) n fd) (maxsock v) (nbyt v)
            (closeneeded v).
Definition set_maxsock (x : Z) (v : locals) : locals :=
  mk_locals (buf v) (dest v) (sockfd v) x (nbyt v) (closeneeded v).
Definition set_nbyt (x : Z) (v : locals) : locals :=
  mk_locals (buf v) (dest v) (sockfd v) (maxsock v) x (closeneeded v).
Definition set_closeneeded (x : Z) (v : locals) : locals :=
  mk_locals (buf v) (dest v) (sockfd v) (maxsock v) (nbyt v) x.

(** Storage at entry of [main].  The contents of [buf], [dest] and
    [sockfd] are indeterminate in C; zeros stand for them (every cell is
    written before it is read). *)
Definition init_locals : locals :=
  mk_locals (repeat x00 (Z.to_nat BUFSZ))
            [zero_sockaddr; zero_sockaddr] [0; 0] 0 0 0.

(* ===================================================================== *)
(** ** Calls, the oracle and the machine                                  *)
(* ===================================================================== *)

(** One entry per library or system call, with its arguments and result.
    A [send] that returned is an [EvSend]; one that raised SIGPIPE, and so
    did not return, is an [EvSigpipe]. *)
Inductive event :=
| EvStderr (msg : string)                       (* fprintf(stderr, ..) *)
| EvPerror (what : string)
| EvSocket (ret : Z)
| EvConnect (fd : Z) (d : sockaddr_in) (ret : Z)
| EvClose (fd : Z)
| EvFork (ret : Z)
| EvSetsid
| EvSelect (nfds : Z) (set : list Z) (ret : Z)
| EvRecv (fd : Z) (len : Z) (ret : Z) (data : list byte)
| EvSend (fd : Z) (payload : list byte) (ret : Z)
| EvSigpipe (fd : Z) (payload : list byte).   (* send that raised SIGPIPE *)

Inductive recv_resp :=
| RecvErr                          (* -1 *)
| RecvData (d : list byte).        (* bytes pending; [] is end of stream *)

Inductive send_resp :=
| SendErr                          (* -1 *)
| SendAccept (k : nat)             (* room for k bytes *)
| SendSigpipe.                     (* broken pipe: SIGPIPE is raised *)

Record select_resp := mk_select {
  sel_err : bool;                  (* interrupted or otherwise failed *)
  sel_ready : list Z               (* descriptors that are readable *)
}.

(** What the environment answers.  Setup calls are indexed by the endpoint
    (0 or 1), loop calls by the iteration.  [o_inherited] is the table of
    descriptors the process starts with (for a process started from a
    shell, the standard streams 0, 1 and 2). *)
Record oracle := mk_oracle {
  o_inet_addr : string -> Z;
  o_gethostbyname : string -> option Z;   (* h_addr (4 bytes) or NULL *)
  o_socket : nat -> Z;                    (* descriptor offered; < 0: none *)
  o_connect : nat -> bool;                (* true: connected *)
  o_fork : Z;
  o_select : nat -> select_resp;
  o_recv : nat -> recv_resp;
  o_send : nat -> send_resp;
  o_inherited : list Z
}.

Record machine := mk_machine {
  vars : locals;
  fds : list Z;          (* descriptors open in the process *)
  trace : list event     (* oldest first *)
}.

(** A computation either goes on with a value, or has returned from
    [main] with an exit status, or was terminated by a signal inside a
    call (nothing of the program runs after that). *)
Inductive outcome (A : Type) :=
| Ret (a : A) (m : machine)
| Exit (code : Z) (m : machine)
| Killed (sig : Z) (m : machine).
Arguments Ret {A} a m.
Arguments Exit {A} code m.
Arguments Killed {A} sig m.

Definition SIGPIPE : Z := 13.

Definition M (A : Type) : Type := machine -> outcome A.

Definition ret {A} (a : A) : M A := fun m => Ret a m.
Definition bind {A B} (c : M A) (k : A -> M B) : M B :=
  fun m => match c m with
           | Ret a m' => k a m'
           | Exit code m' => Exit code m'
           | Killed sig m' => Killed sig m'
           end.
Definition return_ {A} (code : Z) : M A := fun m => Exit code m.

Declare Scope proc_scope.
Delimit Scope proc_scope with proc.
Notation "x <- c ;; k" := (bind c (fun x => k))
  (at level 61, c at next level, right associativity) : proc_scope.
Notation "c ;; k" := (bind c (fun _ => k))
  (at level 61, right associativity) : proc_scope.
Local Open Scope proc_scope.

Definition get_var {A} (f : locals -> A) : M A := fun m => Ret (f (vars m)) m.
Definition modify (f : locals -> locals) : M unit :=
  fun m => Ret tt (mk_machine (f (vars m)) (fds m) (trace m)).
Definition log (e : event) : M unit :=
  fun m => Ret tt (mk_machine (vars m) (fds m) (trace m ++ [e])).
Definition when (b : bool) (c : M unit) : M unit := if b then c else ret tt.

Definition mem (fd : Z) (l : list Z) : bool := existsb (Z.eqb fd) l.
Definition is_open (fd : Z) (m : machine) : bool := mem fd (fds m).

(** [fd_set] and its macros.  The set is the list of its members;
    descriptors are taken to be below FD_SETSIZE, as they are under the
    usual limit of 1024 open descriptors. *)
Definition fd_set := list Z.
Definition FD_ZERO : fd_set := [].
Definition FD_SET (fd : Z) (s : fd_set) : fd_set := fd :: s.
Definition FD_ISSET (fd : Z) (s : fd_set) : bool := mem fd s.

Definition fprintf_stderr (msg : string) : M unit := log (EvStderr msg).
Definition perror (what : string) : M unit := log (EvPerror what).

Section Syscalls.

Variable o : oracle.

Definition inet_addr (host : string) : M Z := ret (o_inet_addr o host).
Definition gethostbyname (host : string) : M (option Z) :=
  ret (o_gethostbyname o host).

(** [socket]: the kernel hands out a descriptor that is not open. *)
Definition socket (i : nat) : M Z := fun m =>
  let r := o_socket o i in
  if (r <? 0) || is_open r m
  then Ret (-1) (mk_machine (vars m) (fds m) (trace m ++ [EvSocket (-1)]))
  else Ret r (mk_machine (vars m) (r :: fds m) (trace m ++ [EvSocket r])).

Definition connect (i : nat) (fd : Z) (d : sockaddr_in) : M Z := fun m =>
  let r := if is_open fd m && o_connect o i then 0 else -1 in
  Ret r (mk_machine (vars m) (fds m) (trace m ++ [EvConnect fd d r])).

Definition closesocket (fd : Z) : M unit := fun m =>
  Ret tt (mk_machine (vars m)
            (filter (fun x => negb (x =? fd)) (fds m))
            (trace m ++ [EvClose fd])).

Definition fork : M Z := fun m =>
  Ret (o_fork o)
      (mk_machine (vars m) (fds m) (trace m ++ [EvFork (o_fork o)])).

Definition setsid : M unit := log EvSetsid.

(** [select(nfds, &set, NULL, NULL, NULL)]: descriptors below [nfds] are
    examined; one that is not open makes the call fail (EBADF); otherwise
    the set is cut down to the readable descriptors.  The answer is the
    return value and the set as the call leaves it. *)
Definition select_answer (k : nat) (nfds : Z) (set : fd_set)
    (open : list Z) : Z * fd_set :=
  let examined := filter (fun fd => (0 <=? fd) && (fd <? nfds)) set in
  let resp := o_select o k in
  if forallb (fun fd => mem fd open) examined && negb (sel_err resp)
  then
    let ready := filter (fun fd => mem fd (sel_ready resp)) examined in
    (Z.of_nat (length (nodup Z.eq_dec ready)), ready)
  else (-1, set).

Definition select (k : nat) (nfds : Z) (set : fd_set) : M (Z * fd_set) :=
  fun m =>
  let a := select_answer k nfds set (fds m) in
  Ret a (mk_machine (vars m) (fds m) (trace m ++ [EvSelect nfds set (fst a)])).

(** [recv(fd, buf, len, 0)]: at most [len] of the pending bytes are copied
    to the front of [buf]; the rest of [buf] keeps its contents.  The
    answer is the bytes delivered, or [None] for -1. *)
Definition recv_answer (k : nat) (fd : Z) (len : Z) (open : list Z)
  : option (list byte) :=
  if mem fd open
  then match o_recv o k with
       | RecvErr => None
       | RecvData d => Some (firstn (Z.to_nat len) d)
       end
  else None.

Definition recv (k : nat) (fd : Z) (len : Z) : M Z := fun m =>
  match recv_answer k fd len (fds m) with
  | None =>
      Ret (-1) (mk_machine (vars m) (fds m)
                  (trace m ++ [EvRecv fd len (-1) []]))
  | Some got =>
      let n := Z.of_nat (length got) in
      let b := got ++ skipn (length got) (buf (vars m)) in
      Ret n (mk_machine (set_buf b (vars m)) (fds m)
               (trace m ++ [EvRecv fd len n got]))
  end.

(** [send(fd, buf, n, 0)], that is [write(fd, buf, n)]: the first [n]
    bytes of [buf] are offered.  On a broken connection the kernel raises
    SIGPIPE and the call does not return ([send_kills]); a descriptor that
    is not open gives -1 (EBADF) and no signal.  Otherwise the kernel takes
    a prefix of the bytes and returns its length, or returns -1
    ([send_answer]). *)
Definition send_kills (k : nat) (fd : Z) (open : list Z) : bool :=
  mem fd open &&
  match o_send o k with SendSigpipe => true | _ => false end.

Definition send_answer (k : nat) (fd : Z) (payload : list byte)
    (open : list Z) : Z :=
  if mem fd open
  then match o_send o k with
       | SendErr => -1
       | SendAccept a => Z.of_nat (Nat.min a (length payload))
       | SendSigpipe => -1       (* not reached: [send] does not return *)
       end
  else -1.

Definition send (k : nat) (fd : Z) (n : Z) : M Z := fun m =>
  let payload := firstn (Z.to_nat n) (buf (vars m)) in
  if send_kills k fd (fds m)
  then Killed SIGPIPE
         (mk_machine (vars m) (fds m) (trace m ++ [EvSigpipe fd payload]))
  else
    let r := send_answer k fd payload (fds m) in
    Ret r (mk_machine (vars m) (fds m) (trace m ++ [EvSend fd payload r])).

End Syscalls.

(** Helpers shared by the two programs. *)
Definition sock (i : nat) (v : locals) : Z := nth i (sockfd v) 0.
Definition dst (i : nat) (v : locals) : sockaddr_in :=
  nth i (dest v) zero_sockaddr.
Definition arg (argv : list string) (n : nat) : string := nth n argv ""%string.
Definition argc (argv : list string) : Z := Z.of_nat (length argv).

Definition upd_dest (i : nat) (f : sockaddr_in -> sockaddr_in) : M unit :=
  modify (fun v => set_dest i (f (dst i v)) v).

Definition with_family (x : Z) (d : sockaddr_in) : sockaddr_in :=
  mk_sockaddr x (sin_port d) (sin_addr d).
Definition with_port (x : Z) (d : sockaddr_in) : sockaddr_in :=
  mk_sockaddr (sin_family d) x (sin_addr d).
Definition with_addr (x : Z) (d : sockaddr_in) : sockaddr_in :=
  mk_sockaddr (sin_family d) (sin_port d) x.

(** [for (i = 0; i < 2; ++i) body] runs [body] on the indices in turn. *)
Fixpoint for_ (idx : list nat) (body : nat -> M unit) : M unit :=
  match idx with
  | [] => ret tt
  | i :: rest => body i ;; for_ rest body
  end.

Definition usage (argv : list string) : string :=
  ("Usage: " ++ arg argv 0
     ++ " remotehost1 remoteport1 remotehost2 remoteport2")%string.

(** At process start the inherited descriptors are open and nothing has been
    called. *)
Definition init_machine (o : oracle) : machine :=
  mk_machine init_locals (o_inherited o) [].

(* ===================================================================== *)
(** ** src/revdatapipe.c                                                  *)
(* ===================================================================== *)

Module Rev.
Section Program.

Variable o : oracle.
Variable argv : list string.

(** Body of the [for] loop, lines 57-88. *)
Definition dial (i : nat) : M unit :=
  upd_dest i (fun _ => zero_sockaddr) ;;
  upd_dest i (with_family AF_INET) ;;
  upd_dest i (with_port (htons (to_ushort (atol (arg argv (2 + i * 2)))))) ;;
  port <- get_var (fun v => sin_port (dst i v)) ;;
  (if port =? 0
   then fprintf_stderr "invalid target port" ;; return_ (-1)
   else ret tt) ;;
  a <- inet_addr o (arg argv (1 + i * 2)) ;;
  upd_dest i (with_addr a) ;;
  addr <- get_var (fun v => sin_addr (dst i v)) ;;
  (if addr =? INADDR_NONE
   then
     n <- gethostbyname o (arg argv (1 + i * 2)) ;;
     match n with
     | None => perror "gethostbyname" ;; return_ (-1)
     | Some h_addr => upd_dest i (with_addr h_addr)
     end
   else ret tt) ;;
  s <- socket o i ;;
  modify (set_sockfd i s) ;;
  (if s <? 0 then perror "socket" ;; return_ (-1) else ret tt) ;;
  v <- get_var (fun v => v) ;;
  when (sock i v >? maxsock v) (modify (set_maxsock (sock i v))) ;;
  d <- get_var (dst i) ;;
  c <- connect o i (sock i v) d ;;
  when (negb (c =? 0)) (perror "connect" ;; closesocket (sock i v)).

(** Lines 48-89: argument count and the two dials. *)
Definition setup : M unit :=
  (if negb (5 =? argc argv)
   then fprintf_stderr (usage argv) ;; return_ (-1)
   else ret tt) ;;
  for_ [0%nat; 1%nat] dial.

(** Body of [while (1)], lines 97-121. *)
Definition iteration (k : nat) : M unit :=
  v <- get_var (fun v => v) ;;
  let fdsr := FD_SET (sock 1 v) (FD_SET (sock 0 v) FD_ZERO) in
  rs <- select o k (maxsock v + 1) fdsr ;;
  let fdsr := snd rs in
  (if fst rs <? 0 then return_ (-1) else ret tt) ;;
  modify (set_nbyt 0) ;;
  modify (set_closeneeded 0) ;;
  (if FD_ISSET (sock 0 v) fdsr then
     n <- recv o k (sock 0 v) BUFSZ ;;
     modify (set_nbyt n) ;;
     if n <=? 0 then modify (set_closeneeded 1)
     else
       w <- send o k (sock 1 v) n ;;
       when (w <=? 0) (modify (set_closeneeded 1))
   else if FD_ISSET (sock 1 v) fdsr then
     n <- recv o k (sock 1 v) BUFSZ ;;
     modify (set_nbyt n) ;;
     if n <=? 0 then modify (set_closeneeded 1)
     else
       w <- send o k (sock 0 v) n ;;
       when (w <=? 0) (modify (set_closeneeded 1))
   else ret tt) ;;
  c <- get_var closeneeded ;;
  when (negb (c =? 0)) (closesocket (sock 0 v) ;; closesocket (sock 1 v)).

(** [fuel] turns of the loop, the first one numbered [k].  The body has no
    [break]: the loop is left only by the [return] inside it, and
    [Ret tt] means that the process is still looping. *)
Fixpoint loop (fuel k : nat) : M unit :=
  match fuel with
  | O => ret tt
  | S f => iteration k ;; loop f (S k)
  end.

Definition main (fuel : nat) : outcome unit :=
  (setup ;; loop fuel 0) (init_machine o).

End Program.
End Rev.

(* ===================================================================== *)
(** ** src/datapipe.c                                                     *)
(* ===================================================================== *)

Module Dp.
Section Program.

Variable o : oracle.
Variable argv : list string.

(** Body of the [for] loop, lines 105-136. *)
Definition dial (i : nat) : M unit :=
  upd_dest i (fun _ => zero_sockaddr) ;;
  upd_dest i (with_family AF_INET) ;;
  upd_dest i (with_port (htons (to_ushort (atol (arg argv (2 + i * 2)))))) ;;
  port <- get_var (fun v => sin_port (dst i v)) ;;
  (if port =? 0
   then fprintf_stderr "invalid target port" ;; return_ 25
   else ret tt) ;;
  a <- inet_addr o (arg argv (1 + i * 2)) ;;
  upd_dest i (with_addr a) ;;
  addr <- get_var (fun v => sin_addr (dst i v)) ;;
  (if addr =? INADDR_NONE
   then
     n <- gethostbyname o (arg argv (1 + i * 2)) ;;
     match n with
     | None => perror "gethostbyname" ;; return_ 25
     | Some h_addr => upd_dest i (with_addr h_addr)
     end
   else ret tt) ;;
  s <- socket o i ;;
  modify (set_sockfd i s) ;;
  (if s <? 0 then perror "socket" ;; return_ (-1) else ret tt) ;;
  v <- get_var (fun v => v) ;;
  when (sock i v >? maxsock v) (modify (set_maxsock (sock i v))) ;;
  d <- get_var (dst i) ;;
  c <- connect o i (sock i v) d ;;
  when (negb (c =? 0)) (perror "connect" ;; closesocket (sock i v)).

(** Lines 96-148: argument count, the two dials, the fork. *)
Definition setup : M unit :=
  (if negb (5 =? argc argv)
   then fprintf_stderr (usage argv) ;; return_ 30
   else ret tt) ;;
  for_ [0%nat; 1%nat] dial ;;
  i <- fork o ;;
  (if i =? -1 then perror "fork" ;; return_ 20 else ret tt) ;;
  (if i >? 0 then return_ 0 else ret tt) ;;
  setsid.

(** Body of [while (1)], lines 156-179.  [nbyt] is declared here without
    an initialiser: its slot keeps whatever it held. *)
Definition iteration (k : nat) : M unit :=
  v <- get_var (fun v => v) ;;
  let fdsr := FD_SET (sock 1 v) (FD_SET (sock 0 v) FD_ZERO) in
  rs <- select o k (maxsock v + 1) fdsr ;;
  let fdsr := snd rs in
  (if fst rs <? 0 then return_ 30 else ret tt) ;;
  modify (set_closeneeded 0) ;;
  (if FD_ISSET (sock 0 v) fdsr then
     n <- recv o k (sock 0 v) BUFSZ ;;
     modify (set_nbyt n) ;;
     if n <=? 0 then modify (set_closeneeded 1)
     else
       w <- send o k (sock 1 v) n ;;
       when (w <=? 0) (modify (set_closeneeded 1))
   else if FD_ISSET (sock 1 v) fdsr then
     n <- recv o k (sock 1 v) BUFSZ ;;
     modify (set_nbyt n) ;;
     if n <=? 0 then modify (set_closeneeded 1)
     else
       w <- send o k (sock 0 v) n ;;
       when (w <=? 0) (modify (set_closeneeded 1))
   else ret tt) ;;
  c <- get_var closeneeded ;;
  when (negb (c =? 0)) (closesocket (sock 0 v) ;; closesocket (sock 1 v)).

Fixpoint loop (fuel k : nat) : M unit :=
  match fuel with
  | O => ret tt
  | S f => iteration k ;; loop f (S k)
  end.

Definition main (fuel : nat) : outcome unit :=
  (setup ;; loop fuel 0) (init_machine o).

End Program.
End Dp.

(* ===================================================================== *)
(** ** The two programs side by side                                      *)
(* ===================================================================== *)

Inductive variant := RevDatapipe | Datapipe.

Definition dial_of (p : variant) :=
  match p with RevDatapipe => Rev.dial | Datapipe => Dp.dial end.
Definition setup_of (p : variant) :=
  match p with RevDatapipe => Rev.setup | Datapipe => Dp.setup end.
Definition iteration_of (p : variant) :=
  match p with RevDatapipe => Rev.iteration | Datapipe => Dp.iteration end.
Definition loop_of (p : variant) :=
  match p with RevDatapipe => Rev.loop | Datapipe => Dp.loop end.
Definition main_of (p : variant) :=
  match p with RevDatapipe => Rev.main | Datapipe => Dp.main end.

(** The value of each [return] statement, by the place it stands at. *)
Definition status_usage (p : variant) : Z :=
  match p with RevDatapipe => -1 | Datapipe => 30 end.
Definition status_port (p : variant) : Z :=
  match p with RevDatapipe => -1 | Datapipe => 25 end.
Definition status_host (p : variant) : Z :=
  match p with RevDatapipe => -1 | Datapipe => 25 end.
Definition status_socket (p : variant) : Z :=
  match p with RevDatapipe => -1 | Datapipe => -1 end.
Definition status_select (p : variant) : Z :=
  match p with RevDatapipe => -1 | Datapipe => 30 end.

(** The machine an outcome ends in, and the calls issued between two
    machines of one run. *)
Definition machine_of {A} (r : outcome A) : machine :=
  match r with Ret _ m => m | Exit _ m => m | Killed _ m => m end.
Definition emitted (m m' : machine) : list event :=
  skipn (length (trace m)) (trace m').

(** The descriptor set handed to [select], its answer, and the two
    [FD_ISSET] tests of the loop body. *)
Definition watched (v : locals) : fd_set :=
  FD_SET (sock 1 v) (FD_SET (sock 0 v) FD_ZERO).
Definition polled (o : oracle) (k : nat) (m : machine) : Z * fd_set :=
  select_answer o k (maxsock (vars m) + 1) (watched (vars m)) (fds m).
Definition ready (o : oracle) (k : nat) (m : machine) (i : nat) : bool :=
  FD_ISSET (sock i (vars m)) (snd (polled o k m)).

Definition EvPoll (o : oracle) (k : nat) (m : machine) : event :=
  EvSelect (maxsock (vars m) + 1) (watched (vars m)) (fst (polled o k m)).

(** The descriptor table after [closesocket(sockfd[0])] and
    [closesocket(sockfd[1])]. *)
Definition closed_both (m : machine) : list Z :=
  filter (fun x => negb (x =? sock 1 (vars m)))
    (filter (fun x => negb (x =? sock 0 (vars m))) (fds m)).
Definition closes (m : machine) : list event :=
  [EvClose (sock 0 (vars m)); EvClose (sock 1 (vars m))].

(** The machine after one turn that left [b] in [buf], [nb] in [nbyt] and
    [cl] in [closeneeded], having issued [evs]. *)
Definition turned (m : machine) (b : list byte) (nb cl : Z)
    (evs : list event) : machine :=
  let v := vars m in
  mk_machine (mk_locals b (dest v) (sockfd v) (maxsock v) nb cl)
    (if cl =? 0 then fds m else closed_both m)
    (trace m ++ evs).

Definition side (i : nat) : Prop := i = 0%nat \/ i = 1%nat.
Definition other (i : nat) : nat := (1 - i)%nat.

(** One turn of the loop, case by case: the [select] fails; nothing is
    readable; the read returns zero or less; the read brings data and the
    write returns; the read brings data and the write raises SIGPIPE. *)
Inductive turn (p : variant) (o : oracle) (k : nat) (m : machine)
  : outcome unit -> Prop :=
| T_fail :
    fst (polled o k m) < 0 ->
    turn p o k m
      (Exit (status_select p)
         (mk_machine (vars m) (fds m) (trace m ++ [EvPoll o k m])))
| T_idle nb :
    0 <= fst (polled o k m) ->
    ready o k m 0 = false -> ready o k m 1 = false ->
    turn p o k m
      (Ret tt (turned m (buf (vars m)) nb 0 [EvPoll o k m]))
| T_end i n :
    0 <= fst (polled o k m) ->
    side i -> ready o k m i = true -> (i = 1%nat -> ready o k m 0 = false) ->
    (n = -1 /\ recv_answer o k (sock i (vars m)) BUFSZ (fds m) = None) \/
    (n = 0 /\ recv_answer o k (sock i (vars m)) BUFSZ (fds m) = Some []) ->
    turn p o k m
      (Ret tt (turned m (buf (vars m)) n 1
                 ([EvPoll o k m; EvRecv (sock i (vars m)) BUFSZ n []]
                    ++ closes m)))
| T_copy i d w :
    0 <= fst (polled o k m) ->
    side i -> ready o k m i = true -> (i = 1%nat -> ready o k m 0 = false) ->
    recv_answer o k (sock i (vars m)) BUFSZ (fds m) = Some d ->
    d <> [] ->
    send_kills o k (sock (other i) (vars m)) (fds m) = false ->
    w = send_answer o k (sock (other i) (vars m)) d (fds m) ->
    turn p o k m
      (Ret tt (turned m (d ++ skipn (length d) (buf (vars m)))
                 (Z.of_nat (length d)) (if w <=? 0 then 1 else 0)
                 ([EvPoll o k m;
                   EvRecv (sock i (vars m)) BUFSZ (Z.of_nat (length d)) d;
                   EvSend (sock (other i) (vars m)) d w]
                    ++ (if w <=? 0 then closes m else []))))
| T_killed i d :
    0 <= fst (polled o k m) ->
    side i -> ready o k m i = true -> (i = 1%nat -> ready o k m 0 = false) ->
    recv_answer o k (sock i (vars m)) BUFSZ (fds m) = Some d ->
    d <> [] ->
    send_kills o k (sock (other i) (vars m)) (fds m) = true ->
    turn p o k m
      (Killed SIGPIPE
         (turned m (d ++ skipn (length d) (buf (vars m)))
            (Z.of_nat (length d)) 0
            [EvPoll o k m;
             EvRecv (sock i (vars m)) BUFSZ (Z.of_nat (length d)) d;
             EvSigpipe (sock (other i) (vars m)) d])).

(** The port and host operands of endpoint [i]. *)
Definition port_of (argv : list string) (i : nat) : Z :=
  htons (to_ushort (atol (arg argv (2 + i * 2)))).
Definition host_of (argv : list string) (i : nat) : string :=
  arg argv (1 + i * 2).

(** Address resolution: [inet_addr], then [gethostbyname] when that yields
    [INADDR_NONE]. *)
Definition resolved (o : oracle) (host : string) : option Z :=
  if o_inet_addr o host =? INADDR_NONE
  then o_gethostbyname o host
  else Some (o_inet_addr o host).

Definition dialed_vars (argv : list string) (i : nat) (a s : Z) (v : locals)
  : locals :=
  set_maxsock (Z.max s (maxsock v))
    (set_sockfd i s
       (set_dest i (mk_sockaddr AF_INET (port_of argv i) a) v)).

(** One turn of the [for] loop, case by case. *)
Inductive dialed (p : variant) (o : oracle) (argv : list string) (i : nat)
    (m : machine) : outcome unit -> Prop :=
| D_port :
    port_of argv i = 0 ->
    dialed p o argv i m
      (Exit (status_port p)
         (mk_machine (set_dest i (mk_sockaddr AF_INET 0 0) (vars m)) (fds m)
            (trace m ++ [EvStderr "invalid target port"])))
| D_host :
    port_of argv i <> 0 ->
    resolved o (host_of argv i) = None ->
    dialed p o argv i m
      (Exit (status_host p)
         (mk_machine
            (set_dest i (mk_sockaddr AF_INET (port_of argv i) INADDR_NONE)
               (vars m))
            (fds m) (trace m ++ [EvPerror "gethostbyname"])))
| D_socket a :
    port_of argv i <> 0 ->
    resolved o (host_of argv i) = Some a ->
    o_socket o i < 0 \/ mem (o_socket o i) (fds m) = true ->
    dialed p o argv i m
      (Exit (status_socket p)
         (mk_machine
            (set_sockfd i (-1)
               (set_dest i (mk_sockaddr AF_INET (port_of argv i) a) (vars m)))
            (fds m) (trace m ++ [EvSocket (-1); EvPerror "socket"])))
| D_connected a :
    port_of argv i <> 0 ->
    resolved o (host_of argv i) = Some a ->
    0 <= o_socket o i -> mem (o_socket o i) (fds m) = false ->
    o_connect o i = true ->
    dialed p o argv i m
      (Ret tt
         (mk_machine (dialed_vars argv i a (o_socket o i) (vars m))
            (o_socket o i :: fds m)
            (trace m ++
             [EvSocket (o_socket o i);
              EvConnect (o_socket o i)
                (mk_sockaddr AF_INET (port_of argv i) a) 0])))
| D_refused a :
    port_of argv i <> 0 ->
    resolved o (host_of argv i) = Some a ->
    0 <= o_socket o i -> mem (o_socket o i) (fds m) = false ->
    o_connect o i = false ->
    dialed p o argv i m
      (Ret tt
         (mk_machine (dialed_vars argv i a (o_socket o i) (vars m))
            (fds m)
            (trace m ++
             [EvSocket (o_socket o i);
              EvConnect (o_socket o i)
                (mk_sockaddr AF_INET (port_of argv i) a) (-1);
              EvPerror "connect";
              EvClose (o_socket o i)]))).

(** The machine in which the dial of endpoint [i] starts, in a run that
    gets that far: the argument count is five, and the second dial starts
    where the first one has ended without a [return]. *)
Definition dial_start (p : variant) (o : oracle) (argv : list string)
    (i : nat) (m : machine) : Prop :=
  argc argv = 5 /\
  match i with
  | O => m = init_machine o
  | S O => dial_of p o argv 0 (init_machine o) = Ret tt m
  | _ => False
  end.

(** What follows the two dials: nothing in revdatapipe.c; in datapipe.c
    the [fork], after which only the child ([fork] returned neither -1 nor
    a positive pid) goes on. *)
Definition after_dials (p : variant) (o : oracle) (m : machine)
  : outcome unit :=
  match p with
  | RevDatapipe => Ret tt m
  | Datapipe =>
      if o_fork o =? -1
      then Exit 20 (mk_machine (vars m) (fds m)
                      (trace m ++ [EvFork (o_fork o); EvPerror "fork"]))
      else if o_fork o >? 0
      then Exit 0 (mk_machine (vars m) (fds m)
                     (trace m ++ [EvFork (o_fork o)]))
      else Ret tt (mk_machine (vars m) (fds m)
                     (trace m ++ [EvFork (o_fork o); EvSetsid]))
  end.

(** What holds of the locals whenever the loop body starts. *)
Record loop_inv (m : machine) : Prop := mk_loop_inv {
  inv_buf : length (buf (vars m)) = Z.to_nat BUFSZ;
  inv_dest : length (dest (vars m)) = 2%nat;
  inv_sockfd : length (sockfd (vars m)) = 2%nat;
  inv_sock0 : 0 <= sock 0 (vars m) <= maxsock (vars m);
  inv_sock1 : 0 <= sock 1 (vars m) <= maxsock (vars m)
}.

(* ===================================================================== *)
(** ** Reading a trace                                                    *)
(* ===================================================================== *)

(** The calls issued by turn [k] of the loop started in [m]. *)
Definition turn_events (p : variant) (o : oracle) (k : nat) (m : machine)
  : list event :=
  emitted m (machine_of (iteration_of p o k m)).

Definition is_recv (e : event) : bool :=
  match e with EvRecv _ _ _ _ => true | _ => false end.
Definition is_send (e : event) : bool :=
  match e with EvSend _ _ _ => true | _ => false end.
Definition recvs (evs : list event) : list event := filter is_recv evs.
Definition sends (evs : list event) : list event := filter is_send evs.

(** The [send] calls of a trace, returned or not: the descriptor and the
    bytes offered. *)
Definition writes (evs : list event) : list (Z * list byte) :=
  flat_map (fun e => match e with
                     | EvSend fd payload _ => [(fd, payload)]
                     | EvSigpipe fd payload => [(fd, payload)]
                     | _ => []
                     end) evs.

(** Some [select] of the trace returned -1. *)
Definition select_failed (evs : list event) : bool :=
  existsb (fun e => match e with EvSelect _ _ r => r <? 0 | _ => false end)
    evs.

(** The bytes the reads brought in, and the bytes the writes got out: of a
    [send] that returned [w] the kernel took the first [w] bytes. *)
Definition received (evs : list event) : list byte :=
  flat_map (fun e => match e with EvRecv _ _ _ d => d | _ => [] end) evs.
Definition delivered (evs : list event) : list byte :=
  flat_map (fun e => match e with
                     | EvSend _ payload w => firstn (Z.to_nat w) payload
                     | _ => []
                     end) evs.

(** A read or a write of the turn returned zero or an error. *)
Definition failed_io (evs : list event) : Prop :=
  (exists fd len n d, In (EvRecv fd len n d) evs /\ n <= 0) \/
  (exists fd payload w, In (EvSend fd payload w) evs /\ w <= 0).

(** An environment without errors: [select] is never interrupted, every
    read brings data, every write takes at least one byte. *)
Definition quiet (o : oracle) : Prop :=
  forall k,
    sel_err (o_select o k) = false /\
    (exists d, o_recv o k = RecvData d /\ d <> []) /\
    (exists a, o_send o k = SendAccept (S a)).

(* ===================================================================== *)
(** ** Sample environments                                                *)
(* ===================================================================== *)

Definition PING : list byte := [x50; x49; x4e; x47].
Definition sample_argv : list string :=
  ["revdatapipe"; "10.0.0.1"; "7000"; "10.0.0.2"; "7001"]%string.

(** Both dials succeed on descriptors 3 and 4; both sides always have
    "PING" pending and room for it. *)
Definition o_relay : oracle :=
  mk_oracle (fun _ => 167772161) (fun _ => None)
    (fun i => 3 + Z.of_nat i) (fun _ => true) 0
    (fun _ => mk_select false [3; 4])
    (fun _ => RecvData PING) (fun _ => SendAccept 4096)
    [0; 1; 2].

(** As [o_relay], but each write takes two bytes only. *)
Definition o_short : oracle :=
  mk_oracle (fun _ => 167772161) (fun _ => None)
    (fun i => 3 + Z.of_nat i) (fun _ => true) 0
    (fun _ => mk_select false [3; 4])
    (fun _ => RecvData PING) (fun _ => SendAccept 2)
    [0; 1; 2].

(** As [o_relay], but the first side is at end of stream. *)
Definition o_eof : oracle :=
  mk_oracle (fun _ => 167772161) (fun _ => None)
    (fun i => 3 + Z.of_nat i) (fun _ => true) 0
    (fun _ => mk_select false [3; 4])
    (fun _ => RecvData []) (fun _ => SendAccept 4096)
    [0; 1; 2].

(* ===================================================================== *)
(** ** Reading setup                                                      *)
(* ===================================================================== *)

(** The calls of one successful turn of the dialling loop. *)
Definition dial_events (o : oracle) (argv : list string) (i : nat) (a : Z)
  : list event :=
  let s := o_socket o i in
  let d := mk_sockaddr AF_INET (port_of argv i) a in
  EvSocket s
  :: (if o_connect o i
      then [EvConnect s d 0]
      else [EvConnect s d (-1); EvPerror "connect"; EvClose s]).

(** Every check of setup that ends in a [return] is passed: the argument
    count, and for each endpoint the port test, the resolution of the host
    and the creation of the socket (the kernel offers a descriptor that is
    not open); in datapipe.c also the fork, on the child side. *)
Definition passes_checks (p : variant) (o : oracle) (argv : list string)
  : Prop :=
  argc argv = 5 /\
  (forall i, side i ->
     port_of argv i <> 0 /\
     resolved o (host_of argv i) <> None /\
     0 <= o_socket o i) /\
  mem (o_socket o 0) (o_inherited o) = false /\
  mem (o_socket o 1)
    ((if o_connect o 0 then [o_socket o 0] else []) ++ o_inherited o)
    = false /\
  (p = Datapipe -> o_fork o <> -1 /\ o_fork o <= 0).

(** The first connect is refused and the kernel hands the freed descriptor
    out again; the second connects; its peer always has "PING" pending. *)
Definition o_echo : oracle :=
  mk_oracle (fun _ => 167772161) (fun _ => None)
    (fun _ => 3) (fun i => match i with O => false | _ => true end) 0
    (fun _ => mk_select false [3])
    (fun _ => RecvData PING) (fun _ => SendAccept 4096)
    [0; 1; 2].

(** As [o_relay], but both connects are refused. *)
Definition o_refused : oracle :=
  mk_oracle (fun _ => 167772161) (fun _ => None)
    (fun i => 3 + Z.of_nat i) (fun _ => false) 0
    (fun _ => mk_select false [3; 4])
    (fun _ => RecvData PING) (fun _ => SendAccept 4096)
    [0; 1; 2].

Definition argv_65537 : list string :=
  ["revdatapipe"; "10.0.0.1"; "65537"; "10.0.0.2"; "7001"]%string.
Definition argv_port0 : list string :=
  ["revdatapipe"; "10.0.0.1"; "0"; "10.0.0.2"; "7001"]%string.

(* ===================================================================== *)
(** ** Comparing the two programs                                         *)
(* ===================================================================== *)

Definition is_fork_call (e : event) : bool :=
  match e with EvFork _ | EvSetsid => true | _ => false end.

(** A trace with the calls of the fork step left out. *)
Definition without_fork (t : list event) : list event :=
  filter (fun e => negb (is_fork_call e)) t.

(** [fork] returned in the child: neither -1 nor a pid. *)
Definition in_child (o : oracle) : Prop := o_fork o <> -1 /\ o_fork o <= 0.

(** Statuses of the same [return] statement: -1 in revdatapipe.c, one of
    30, 25, -1 in datapipe.c. *)
Definition same_status (c_rev c_dp : Z) : Prop :=
  c_rev = -1 /\ (c_dp = 30 \/ c_dp = 25 \/ c_dp = -1).

(** Same locals (but for [nbyt], which is dead at the end of a turn), same
    open descriptors, same calls with the same arguments and results. *)
Definition same_state (m_rev m_dp : machine) : Prop :=
  set_nbyt 0 (vars m_rev) = set_nbyt 0 (vars m_dp) /\
  fds m_rev = fds m_dp /\
  trace m_rev = without_fork (trace m_dp).

Definition same_run (r_rev r_dp : outcome unit) : Prop :=
  match r_rev, r_dp with
  | Ret _ m1, Ret _ m2 => same_state m1 m2
  | Exit c1 m1, Exit c2 m2 => same_status c1 c2 /\ same_state m1 m2
  | Killed s1 m1, Killed s2 m2 => s1 = s2 /\ same_state m1 m2
  | _, _ => False
  end.

(** Outcomes of one dial from one machine: the same machine, statuses of
    the same statement. *)
Definition same_dial (r_rev r_dp : outcome unit) : Prop :=
  match r_rev, r_dp with
  | Ret _ m1, Ret _ m2 => m1 = m2
  | Exit c1 m1, Exit c2 m2 => same_status c1 c2 /\ m1 = m2
  | Killed s1 m1, Killed s2 m2 => s1 = s2 /\ m1 = m2
  | _, _ => False
  end.

(* ===================================================================== *)
(** ** Further sample environments                                        *)
(* ===================================================================== *)

(** No host is parsed or known. *)
Definition o_nohost : oracle :=
  mk_oracle (fun _ => INADDR_NONE) (fun _ => None)
    (fun i => 3 + Z.of_nat i) (fun _ => true) 0
    (fun _ => mk_select false [3; 4])
    (fun _ => RecvData PING) (fun _ => SendAccept 4096)
    [0; 1; 2].

(** The kernel has no descriptor to give. *)
Definition o_nosocket : oracle :=
  mk_oracle (fun _ => 167772161) (fun _ => None)
    (fun _ => -1) (fun _ => true) 0
    (fun _ => mk_select false [3; 4])
    (fun _ => RecvData PING) (fun _ => SendAccept 4096)
    [0; 1; 2].



(** As [o_relay], but the second connect is refused. *)
Definition o_second_refused : oracle :=
  mk_oracle (fun _ => 167772161) (fun _ => None)
    (fun i => 3 + Z.of_nat i)
    (fun i => match i with O => true | _ => false end) 0
    (fun _ => mk_select false [3; 4])
    (fun _ => RecvData PING) (fun _ => SendAccept 4096)
    [0; 1; 2].

(* ===================================================================== *)
(** ** Reading a whole run                                                *)
(* ===================================================================== *)

(** The bytes read from descriptor [fd], and the bytes that the writes to
    [fd] got out, over a trace. *)
Definition received_from (fd : Z) (t : list event) : list byte :=
  flat_map (fun e => match e with
                     | EvRecv fd' _ _ d => if fd' =? fd then d else []
                     | _ => []
                     end) t.
Definition delivered_to (fd : Z) (t : list event) : list byte :=
  flat_map (fun e => match e with
                     | EvSend fd' payload w =>
                         if fd' =? fd then firstn (Z.to_nat w) payload else []
                     | _ => []
                     end) t.

(** Every write of the trace took all it was offered: each one returned,
    and returned the count it was given. *)
Definition complete_writes (t : list event) : Prop :=
  (forall fd payload w,
     In (EvSend fd payload w) t -> w = Z.of_nat (length payload)) /\
  (forall fd payload, ~ In (EvSigpipe fd payload) t).

(** No read and no write in the trace. *)
Definition no_io (t : list event) : Prop :=
  forall e, In e t -> is_recv e = false /\ is_send e = false.

(** [P] holds of the [n] integers from [x] on: a check that computes. *)
Fixpoint all_from (n : nat) (x : Z) (P : Z -> bool) : bool :=
  match n with
  | O => true
  | S n' => P x && all_from n' (x + 1) P
  end.

(** [complete_writes], as a check that computes. *)
Definition complete_writesb (t : list event) : bool :=
  forallb (fun e => match e with
                    | EvSend _ payload w => w =? Z.of_nat (length payload)
                    | EvSigpipe _ _ => false
                    | _ => true
                    end) t.

(* ===================================================================== *)
(** ** Sample environments: signals and the start table                   *)
(* ===================================================================== *)

(** As [o_relay], but the second connection is broken: a write on it
    raises SIGPIPE. *)
Definition o_sigpipe : oracle :=
  mk_oracle (fun _ => 167772161) (fun _ => None)
    (fun i => 3 + Z.of_nat i) (fun _ => true) 0
    (fun _ => mk_select false [3; 4])
    (fun _ => RecvData PING) (fun _ => SendSigpipe)
    [0; 1; 2].

(** The process is started with its standard input closed: the first
    socket gets descriptor 0, the second descriptor 3; the first side is at
    end of stream. *)
Definition o_stdin_closed : oracle :=
  mk_oracle (fun _ => 167772161) (fun _ => None)
    (fun i => match i with O => 0 | _ => 3 end) (fun _ => true) 0
    (fun _ => mk_select false [0; 3])
    (fun _ => RecvData []) (fun _ => SendAccept 4096)
    [1; 2].

(* ===================================================================== *)
(** ** Lists and descriptors                                              *)
(* ===================================================================== *)

Lemma firstn_length_app {A} (d r : list A) :
  firstn (Z.to_nat (Z.of_nat (length d))) (d ++ r) = d.
Proof.
  rewrite Nat2Z.id.
  rewrite firstn_app, Nat.sub_diag, firstn_all. simpl.
  apply app_nil_r.
Qed.

Lemma emitted_app (m : machine) (evs : list event) (m' : machine) :
  trace m' = trace m ++ evs -> emitted m m' = evs.
Proof.
  intros H. unfold emitted. rewrite H.
  rewrite skipn_app, Nat.sub_diag, skipn_all. reflexivity.
Qed.

Lemma mem_true_iff (fd : Z) (l : list Z) : mem fd l = true <-> In fd l.
Proof.
  unfold mem. rewrite existsb_exists. split.
  - intros [x [Hin Heq]]. apply Z.eqb_eq in Heq. now subst.
  - intros Hin. exists fd. split; [assumption | apply Z.eqb_refl].
Qed.

Lemma mem_false_iff (fd : Z) (l : list Z) : mem fd l = false <-> ~ In fd l.
Proof.
  rewrite <- mem_true_iff. destruct (mem fd l); split; intros; congruence.
Qed.

Lemma mem_remove_self (fd : Z) (l : list Z) :
  mem fd (filter (fun x => negb (x =? fd)) l) = false.
Proof.
  apply mem_false_iff. intros H. apply filter_In in H. destruct H as [_ H].
  rewrite Z.eqb_refl in H. discriminate.
Qed.

Lemma mem_remove_mono (fd x : Z) (l : list Z) :
  mem fd l = false -> mem fd (filter (fun y => negb (y =? x)) l) = false.
Proof.
  rewrite !mem_false_iff. intros H Hin. apply H.
  apply filter_In in Hin. tauto.
Qed.

Lemma mem_remove_other (fd x : Z) (l : list Z) :
  fd <> x -> mem fd (filter (fun y => negb (y =? x)) l) = mem fd l.
Proof.
  intros Hne. destruct (mem fd l) eqn:E.
  - apply mem_true_iff. apply filter_In. split.
    + now apply mem_true_iff.
    + apply negb_true_iff. now apply Z.eqb_neq.
  - now apply mem_remove_mono.
Qed.

(* ===================================================================== *)
(** ** One turn of the loop                                               *)
(* ===================================================================== *)

Lemma of_nat_length_le0 {A} (l : list A) :
  (Z.of_nat (length l) <=? 0) = true -> l = [].
Proof.
  destruct l; simpl; intros H; [reflexivity|]. apply Z.leb_le in H. lia.
Qed.

Lemma of_nat_length_gt0 {A} (l : list A) :
  (Z.of_nat (length l) <=? 0) = false -> l <> [].
Proof. destruct l; simpl; intros H; [discriminate | congruence]. Qed.

Lemma turn_eq p o k m r r' : turn p o k m r -> r = r' -> turn p o k m r'.
Proof. intros H <-. exact H. Qed.

Ltac same_machine :=
  unfold turned, closes, closed_both, EvPoll, watched, other,
    set_buf, set_nbyt, set_closeneeded;
  cbn [vars fds trace buf dest sockfd maxsock nbyt closeneeded
       Z.eqb negb Nat.sub];
  repeat rewrite <- app_assoc; cbn [app];
  reflexivity.

Ltac side_conds :=
  match goal with
  | |- side 0 => left; reflexivity
  | |- side 1 => right; reflexivity
  | |- _ = _ -> _ => intros; try discriminate; assumption
  | |- _ \/ _ => first [ left; split; [reflexivity | eassumption]
                       | right; split; [reflexivity | eassumption] ]
  | |- _ => first [ eassumption | reflexivity ]
  end.

Ltac close_turn i :=
  first
    [ solve [ eapply turn_eq; [ eapply T_idle; eassumption | same_machine ] ]
    | solve [ eapply turn_eq;
              [ eapply (T_end _ _ _ _ i); side_conds | same_machine ] ]
    | solve [ eapply turn_eq;
              [ eapply (T_killed _ _ _ _ i); side_conds | same_machine ] ]
    | solve [ eapply turn_eq;
              [ eapply (T_copy _ _ _ _ i); side_conds
              | match goal with H : (_ <=? 0) = _ |- _ =>
                  unfold other; cbn [Nat.sub]; rewrite H end;
                same_machine ] ] ].

Lemma iteration_turn p o k m : turn p o k m (iteration_of p o k m).
Proof.
  pose proof (eq_refl (polled o k m)) as Ha. unfold polled at 2, watched in Ha.
  pose proof (fun i => eq_refl (ready o k m i)) as Hrd.
  unfold ready at 2, polled, watched in Hrd.
  destruct p;
  cbv beta iota zeta delta
    [iteration_of Rev.iteration Dp.iteration bind get_var modify ret return_
     when select recv send closesocket];
  rewrite <- ?Ha, <- ?Hrd;
  (destruct (fst (polled o k m) <? 0) eqn:Hr;
   [ apply T_fail; lia | apply Z.ltb_ge in Hr ]);
  cbn [vars fds trace];
  (destruct (ready o k m 0) eqn:R0; [ | destruct (ready o k m 1) eqn:R1 ]).
  all: cbn [vars fds trace].
  all: try (match goal with |- context [recv_answer ?o' ?k' ?fd ?l ?t] =>
         destruct (recv_answer o' k' fd l t) as [got|] eqn:Hrecv end;
       [ destruct (Z.of_nat (length got) <=? 0) eqn:Hn;
         [ apply of_nat_length_le0 in Hn; subst got
         | apply of_nat_length_gt0 in Hn ] | ]).
  all: cbn [vars fds trace set_closeneeded set_nbyt set_buf buf closeneeded
            Z.leb Z.compare Z.eqb negb length Z.of_nat app skipn].
  all: rewrite ?firstn_length_app.
  all: try match goal with
       | |- context [send_kills ?o' ?k' ?fd ?t] =>
           destruct (send_kills o' k' fd t) eqn:Hk
       end.
  all: try match goal with
       | |- context [send_answer ?o' ?k' ?fd ?d ?t <=? 0] =>
           destruct (send_answer o' k' fd d t <=? 0) eqn:Hw
       end.
  all: cbn [vars fds trace set_closeneeded set_nbyt set_buf buf closeneeded
            Z.leb Z.compare Z.eqb negb].
  all: first [ close_turn 0%nat | close_turn 1%nat ].
Qed.

(* ===================================================================== *)
(** ** One turn of the dialling loop                                      *)
(* ===================================================================== *)

Lemma upd_upd {A} (l : list A) (n : nat) (x y : A) :
  upd (upd l n x) n y = upd l n y.
Proof.
  revert n. induction l as [|h t IH]; intros [|n]; simpl; try reflexivity.
  now rewrite IH.
Qed.

Lemma nth_upd_same {A} (l : list A) (n : nat) (x d : A) :
  (n < length l)%nat -> nth n (upd l n x) d = x.
Proof.
  revert n. induction l as [|h t IH]; intros [|n]; simpl; intros H;
    try lia; try reflexivity.
  apply IH. lia.
Qed.

Lemma nth_upd_other {A} (l : list A) (n k : nat) (x d : A) :
  n <> k -> nth k (upd l n x) d = nth k l d.
Proof.
  revert n k. induction l as [|h t IH]; intros [|n] [|k]; simpl; intros H;
    try reflexivity; try congruence.
  apply IH. congruence.
Qed.

Lemma length_upd {A} (l : list A) (n : nat) (x : A) :
  length (upd l n x) = length l.
Proof.
  revert n. induction l as [|h t IH]; intros [|n]; simpl; try reflexivity.
  now rewrite IH.
Qed.

Lemma filter_absent (fd : Z) (l : list Z) :
  mem fd l = false -> filter (fun x => negb (x =? fd)) l = l.
Proof.
  induction l as [|h t IH]; simpl; intros H; [reflexivity|].
  apply orb_false_iff in H. destruct H as [Hh Ht].
  rewrite Z.eqb_sym, Hh. simpl. now rewrite IH.
Qed.


Ltac norm_locals :=
  repeat (progress (
    unfold set_dest, set_sockfd, set_maxsock, dst, sock, with_port,
      with_family, with_addr, zero_sockaddr;
    cbn [vars fds trace dest sockfd maxsock buf nbyt closeneeded sin_port
         sin_family sin_addr];
    rewrite ?upd_upd;
    rewrite ?nth_upd_same by (rewrite ?length_upd; assumption))).

Lemma dialed_eq p o argv i m r r' :
  dialed p o argv i m r -> r = r' -> dialed p o argv i m r'.
Proof. intros H <-. exact H. Qed.

Lemma max_of_gtb (s ms : Z) :
  (if s >? ms then s else ms) = Z.max s ms.
Proof. destruct (s >? ms) eqn:E; rewrite Z.gtb_ltb in E;
  [apply Z.ltb_lt in E | apply Z.ltb_ge in E]; lia. Qed.

Ltac resolve_host :=
  unfold resolved;
  match goal with
  | H : (o_inet_addr _ _ =? INADDR_NONE) = _ |- _ => rewrite H
  end; try eassumption; try reflexivity.

Ltac same_dialed :=
  unfold dialed_vars; norm_locals;
  cbn [vars fds trace mem existsb filter negb andb orb];
  rewrite ?Z.eqb_refl;
  cbn [vars fds trace filter negb andb orb Z.eqb];
  rewrite ?Z.eqb_refl;
  cbn [vars fds trace filter negb andb orb Z.eqb];
  repeat rewrite <- app_assoc; cbn [app];
  rewrite ?filter_absent by assumption;
  repeat match goal with
         | H : port_of _ _ = 0 |- _ => rewrite H
         | H : (_ =? INADDR_NONE) = true |- _ => apply Z.eqb_eq in H; rewrite H
         end;
  rewrite ?Z.max_l by lia; rewrite ?Z.max_r by lia;
  reflexivity.

Lemma dial_dialed p o argv i m :
  (i < length (dest (vars m)))%nat ->
  (i < length (sockfd (vars m)))%nat ->
  dialed p o argv i m (dial_of p o argv i m).
Proof.
  intros Hd Hs.
  destruct m as [[b ds ss ms nb cl] fd tr]. cbn [vars dest sockfd] in Hd, Hs.
  destruct p;
  cbv beta iota zeta delta
    [dial_of Rev.dial Dp.dial bind get_var modify ret return_ when upd_dest
     fprintf_stderr perror log inet_addr gethostbyname socket connect
     closesocket is_open].
  all: fold (port_of argv i); fold (host_of argv i).
  all: norm_locals.
  all: destruct (port_of argv i =? 0) eqn:Hp;
       [ apply Z.eqb_eq in Hp;
         eapply dialed_eq; [ apply D_port; assumption | same_dialed ]
       | apply Z.eqb_neq in Hp; norm_locals ].
  all: destruct (o_inet_addr o (host_of argv i) =? INADDR_NONE) eqn:Ha;
       [ destruct (o_gethostbyname o (host_of argv i)) as [h|] eqn:Hh;
         [ | eapply dialed_eq;
             [ apply D_host; [assumption | resolve_host] | same_dialed ] ]
       | ].
  all: norm_locals.
  all: destruct ((o_socket o i <? 0) || mem (o_socket o i) fd) eqn:Hso;
       [ apply orb_true_iff in Hso; rewrite Z.ltb_lt in Hso
       | apply orb_false_iff in Hso; destruct Hso as [Hlt Hmem];
         apply Z.ltb_ge in Hlt ].
  all: norm_locals; cbn [Z.ltb Z.compare].
  all: try solve [ eapply dialed_eq;
             [ eapply D_socket; [assumption | resolve_host | assumption ]
             | same_dialed ] ].
  all: destruct (o_socket o i <? 0) eqn:Hneg;
       [ apply Z.ltb_lt in Hneg; lia | ].
  all: norm_locals.
  all: destruct (o_socket o i >? ms) eqn:Hgt;
       rewrite Z.gtb_ltb in Hgt;
       [ apply Z.ltb_lt in Hgt | apply Z.ltb_ge in Hgt ].
  all: destruct (o_connect o i) eqn:Hc.
  all: try solve [ eapply dialed_eq;
             [ eapply D_connected; [assumption | resolve_host | assumption.. ]
             | same_dialed ] ].
  all: try solve [ eapply dialed_eq;
             [ eapply D_refused; [assumption | resolve_host | assumption.. ]
             | same_dialed ] ].
Qed.

(* ===================================================================== *)
(** ** Runs: setup, then turns of the loop                                *)
(* ===================================================================== *)

Lemma loop_snoc p o fuel k m :
  loop_of p o (S fuel) k m =
  match loop_of p o fuel k m with
  | Ret _ m' => iteration_of p o (k + fuel) m'
  | Exit c m' => Exit c m'
  | Killed s m' => Killed s m'
  end.
Proof.
  revert k m. induction fuel as [|f IH]; intros k m.
  - rewrite Nat.add_0_r.
    destruct p; cbn [loop_of Rev.loop Dp.loop iteration_of]; unfold bind, ret.
    + destruct (Rev.iteration o k m) as [[] ?|? ?|? ?]; reflexivity.
    + destruct (Dp.iteration o k m) as [[] ?|? ?|? ?]; reflexivity.
  - assert (Hunf : forall f' k' m',
              loop_of p o (S f') k' m' =
              match iteration_of p o k' m' with
              | Ret _ m1 => loop_of p o f' (S k') m1
              | Exit c m1 => Exit c m1
              | Killed s m1 => Killed s m1
              end) by (intros; destruct p; reflexivity).
    rewrite Hunf. rewrite (Hunf f k m).
    destruct (iteration_of p o k m) as [[] m1|c m1|s m1]; try reflexivity.
    rewrite IH. rewrite Nat.add_succ_comm. reflexivity.
Qed.

Lemma main_succ p o argv n :
  main_of p o argv (S n) =
  match main_of p o argv n with
  | Ret _ m => iteration_of p o n m
  | Exit c m => Exit c m
  | Killed s m => Killed s m
  end.
Proof.
  assert (Hm : forall n', main_of p o argv n' =
            match setup_of p o argv (init_machine o) with
            | Ret _ m0 => loop_of p o n' 0 m0
            | Exit c m0 => Exit c m0
            | Killed s m0 => Killed s m0
            end) by (intros; destruct p; reflexivity).
  rewrite !Hm.
  destruct (setup_of p o argv (init_machine o)) as [[] m0|c m0|s m0];
    try reflexivity.
  rewrite loop_snoc. reflexivity.
Qed.

Lemma main_zero p o argv :
  main_of p o argv 0 = setup_of p o argv (init_machine o).
Proof.
  destruct p; unfold main_of, Rev.main, Dp.main, bind, setup_of;
    cbn [Rev.loop Dp.loop].
  - destruct (Rev.setup o argv (init_machine o)) as [[] ?|? ?|? ?];
      reflexivity.
  - destruct (Dp.setup o argv (init_machine o)) as [[] ?|? ?|? ?];
      reflexivity.
Qed.

(** Once the process has been terminated, more fuel changes nothing. *)
Lemma main_killed_stable p o argv n s m :
  main_of p o argv n = Killed s m ->
  forall n', (n <= n')%nat -> main_of p o argv n' = Killed s m.
Proof.
  intros H n' Hle. induction Hle as [|n' Hle IH]; [assumption|].
  rewrite main_succ, IH. reflexivity.
Qed.

(** Once [main] has returned, more fuel changes nothing. *)
Lemma main_exit_stable p o argv n c m :
  main_of p o argv n = Exit c m ->
  forall n', (n <= n')%nat -> main_of p o argv n' = Exit c m.
Proof.
  intros H n' Hle. induction Hle as [|n' Hle IH]; [assumption|].
  rewrite main_succ, IH. reflexivity.
Qed.

(** A run that is still looping after [n] turns was looping before. *)
Lemma main_running_before p o argv n m :
  main_of p o argv n = Ret tt m ->
  forall n', (n' <= n)%nat -> exists m', main_of p o argv n' = Ret tt m'.
Proof.
  intros H n' Hle.
  destruct (main_of p o argv n') as [[] m'|c m'|s m'] eqn:E; [eauto| |].
  - rewrite (main_exit_stable _ _ _ _ _ _ E n Hle) in H. discriminate.
  - rewrite (main_killed_stable _ _ _ _ _ _ E n Hle) in H. discriminate.
Qed.

Lemma setup_eq p o argv :
  setup_of p o argv (init_machine o) =
  if 5 =? argc argv
  then match dial_of p o argv 0 (init_machine o) with
       | Ret _ m1 =>
           match dial_of p o argv 1 m1 with
           | Ret _ m2 => after_dials p o m2
           | Exit c m => Exit c m
           | Killed s m => Killed s m
           end
       | Exit c m => Exit c m
       | Killed s m => Killed s m
       end
  else Exit (status_usage p)
         (mk_machine init_locals (o_inherited o) [EvStderr (usage argv)]).
Proof.
  destruct p; unfold setup_of, Rev.setup, Dp.setup, dial_of, after_dials;
    cbn [for_]; unfold bind at 1;
    (destruct (5 =? argc argv); cbn [negb]; [|reflexivity]);
    unfold ret at 1; unfold bind at 1.
  - unfold bind at 1.
    destruct (Rev.dial o argv 0 (init_machine o)) as [[] m1|c m1|s m1];
      [ | reflexivity | reflexivity ].
    unfold bind.
    destruct (Rev.dial o argv 1 m1) as [[] m2|c m2|s m2]; reflexivity.
  - unfold bind at 1. unfold bind at 1.
    destruct (Dp.dial o argv 0 (init_machine o)) as [[] m1|c m1|s m1];
      [ | reflexivity | reflexivity ].
    unfold bind at 1.
    destruct (Dp.dial o argv 1 m1) as [[] m2|c m2|s m2];
      [ | reflexivity | reflexivity ].
    unfold ret at 1, bind, fork, perror, log, return_, ret, setsid.
    cbn [vars fds trace].
    destruct (o_fork o =? -1); cbn [vars fds trace].
    { rewrite <- app_assoc; reflexivity. }
    destruct (o_fork o >? 0); cbn [vars fds trace]; [reflexivity|].
    unfold log; cbn [vars fds trace]. rewrite <- app_assoc; reflexivity.
Qed.

(** *** What a successful dial leaves behind *)

Lemma dial_ret p o argv i m m' :
  (i < length (dest (vars m)))%nat ->
  (i < length (sockfd (vars m)))%nat ->
  dial_of p o argv i m = Ret tt m' ->
  exists a,
    port_of argv i <> 0 /\
    resolved o (host_of argv i) = Some a /\
    0 <= o_socket o i /\
    mem (o_socket o i) (fds m) = false /\
    vars m' = dialed_vars argv i a (o_socket o i) (vars m) /\
    fds m' = (if o_connect o i then o_socket o i :: fds m else fds m) /\
    trace m' =
      trace m ++
      EvSocket (o_socket o i)
      :: (if o_connect o i
          then [EvConnect (o_socket o i)
                  (mk_sockaddr AF_INET (port_of argv i) a) 0]
          else [EvConnect (o_socket o i)
                  (mk_sockaddr AF_INET (port_of argv i) a) (-1);
                EvPerror "connect"; EvClose (o_socket o i)]).
Proof.
  intros Hd Hs H.
  pose proof (dial_dialed p o argv i m Hd Hs) as D.
  rewrite H in D.
  inversion D; subst; clear D; exists a;
    match goal with Hc : o_connect _ _ = _ |- _ => rewrite Hc end;
    cbn [vars fds trace]; repeat split; assumption.
Qed.

(** A dial issues no write: it is not terminated by a signal. *)
Lemma dial_alive p o argv i m s m' :
  (i < length (dest (vars m)))%nat ->
  (i < length (sockfd (vars m)))%nat ->
  dial_of p o argv i m <> Killed s m'.
Proof.
  intros Hd Hs H. pose proof (dial_dialed p o argv i m Hd Hs) as D.
  rewrite H in D. inversion D.
Qed.

Lemma dialed_vars_sock_same argv i a s v :
  (i < length (sockfd v))%nat -> sock i (dialed_vars argv i a s v) = s.
Proof.
  intros H. unfold dialed_vars, sock, set_maxsock, set_sockfd, set_dest.
  cbn [sockfd]. now apply nth_upd_same.
Qed.

Lemma dialed_vars_sock_other argv i j a s v :
  i <> j -> sock j (dialed_vars argv i a s v) = sock j v.
Proof.
  intros H. unfold dialed_vars, sock, set_maxsock, set_sockfd, set_dest.
  cbn [sockfd]. now apply nth_upd_other.
Qed.

Lemma dialed_vars_maxsock argv i a s v :
  maxsock (dialed_vars argv i a s v) = Z.max s (maxsock v).
Proof. reflexivity. Qed.

Lemma dialed_vars_buf argv i a s v : buf (dialed_vars argv i a s v) = buf v.
Proof. reflexivity. Qed.

Lemma dialed_vars_lengths argv i a s v :
  length (dest (dialed_vars argv i a s v)) = length (dest v) /\
  length (sockfd (dialed_vars argv i a s v)) = length (sockfd v).
Proof.
  unfold dialed_vars, set_maxsock, set_sockfd, set_dest. cbn [dest sockfd].
  now rewrite !length_upd.
Qed.

(** The loop is entered exactly through two successful dials (and, in
    datapipe.c, on the child side of the fork). *)
Lemma setup_entered p o argv m :
  setup_of p o argv (init_machine o) = Ret tt m ->
  argc argv = 5 /\
  exists m1 m2,
    dial_of p o argv 0 (init_machine o) = Ret tt m1 /\
    dial_of p o argv 1 m1 = Ret tt m2 /\
    after_dials p o m2 = Ret tt m.
Proof.
  rewrite setup_eq. destruct (5 =? argc argv) eqn:E; [|discriminate].
  apply Z.eqb_eq in E.
  destruct (dial_of p o argv 0 (init_machine o)) as [[] m1|c m1|s m1] eqn:E0;
    try discriminate.
  destruct (dial_of p o argv 1 m1) as [[] m2|c m2|s m2] eqn:E1;
    try discriminate.
  intros H. split; [lia|]. exists m1, m2. repeat split; assumption.
Qed.

Lemma after_dials_ret p o m2 m :
  after_dials p o m2 = Ret tt m ->
  vars m = vars m2 /\ fds m = fds m2 /\
  (p = RevDatapipe /\ trace m = trace m2 \/
   p = Datapipe /\ o_fork o <> -1 /\ o_fork o <= 0 /\
     trace m = trace m2 ++ [EvFork (o_fork o); EvSetsid]).
Proof.
  destruct p; cbn [after_dials].
  - intros H; inversion H; subst. split; [reflexivity|].
    split; [reflexivity|]. left. split; reflexivity.
  - destruct (o_fork o =? -1) eqn:E1; [discriminate|].
    destruct (o_fork o >? 0) eqn:E2; [discriminate|].
    intros H; inversion H; subst. cbn [vars fds trace].
    apply Z.eqb_neq in E1. rewrite Z.gtb_ltb in E2. apply Z.ltb_ge in E2.
    split; [reflexivity|]. split; [reflexivity|]. right.
    repeat split; auto.
Qed.

(** The facts about the two descriptors that setup establishes. *)
Lemma setup_sockets p o argv m :
  setup_of p o argv (init_machine o) = Ret tt m ->
  sock 0 (vars m) = o_socket o 0 /\
  sock 1 (vars m) = o_socket o 1 /\
  maxsock (vars m) = Z.max (o_socket o 1) (Z.max (o_socket o 0) 0) /\
  0 <= o_socket o 0 /\ 0 <= o_socket o 1 /\
  buf (vars m) = buf init_locals /\
  length (dest (vars m)) = 2%nat /\ length (sockfd (vars m)) = 2%nat /\
  fds m =
    (if o_connect o 1 then [o_socket o 1] else []) ++
    (if o_connect o 0 then [o_socket o 0] else []) ++ o_inherited o /\
  mem (o_socket o 0) (o_inherited o) = false /\
  mem (o_socket o 1)
    ((if o_connect o 0 then [o_socket o 0] else []) ++ o_inherited o)
    = false.
Proof.
  intros H. apply setup_entered in H.
  destruct H as [_ [m1 [m2 [H0 [H1 H2]]]]].
  apply dial_ret in H0; [| cbn; lia | cbn; lia].
  destruct H0 as [a0 [_ [_ [Hs0 [Hm0 [Hv0 [Hf0 _]]]]]]].
  assert (L1 : length (dest (vars m1)) = 2%nat /\
               length (sockfd (vars m1)) = 2%nat).
  { rewrite Hv0. pose proof (dialed_vars_lengths argv 0 a0 (o_socket o 0)
                               (vars (init_machine o))) as [-> ->]. now cbn. }
  destruct L1 as [Ld1 Ls1].
  apply dial_ret in H1; [| lia | lia].
  destruct H1 as [a1 [_ [_ [Hs1 [Hm1 [Hv1 [Hf1 _]]]]]]].
  apply after_dials_ret in H2. destruct H2 as [Hv [Hf _]].
  rewrite Hv, Hf, Hv1, Hf1, Hf0.
  pose proof (dialed_vars_lengths argv 1 a1 (o_socket o 1) (vars m1))
    as [Ld2 Ls2].
  rewrite dialed_vars_sock_other by congruence.
  rewrite dialed_vars_sock_same by lia.
  rewrite dialed_vars_maxsock, dialed_vars_buf, Ld2, Ls2.
  rewrite Hv0.
  rewrite dialed_vars_sock_same by (cbn; lia).
  rewrite dialed_vars_maxsock, dialed_vars_buf.
  rewrite Hf0 in Hm1. cbn [vars init_machine init_locals maxsock buf fds] in *.
  repeat split; try assumption; try lia.
  - destruct (o_connect o 1), (o_connect o 0); reflexivity.
  - destruct (o_connect o 0); exact Hm1.
Qed.

Lemma setup_inv p o argv m :
  setup_of p o argv (init_machine o) = Ret tt m -> loop_inv m.
Proof.
  intros H. apply setup_sockets in H.
  destruct H as [E0 [E1 [Em [H0 [H1 [Hb [Ld [Ls _]]]]]]]].
  constructor; try assumption.
  - rewrite Hb. cbn [init_locals buf]. apply repeat_length.
  - rewrite E0, Em. lia.
  - rewrite E1, Em. lia.
Qed.

Lemma recv_answer_some o k fd len open d :
  recv_answer o k fd len open = Some d ->
  mem fd open = true /\
  exists d0, o_recv o k = RecvData d0 /\ d = firstn (Z.to_nat len) d0.
Proof.
  unfold recv_answer. destruct (mem fd open); [|discriminate].
  destruct (o_recv o k) as [|d0]; [discriminate|].
  intros H; inversion H; subst. eauto.
Qed.

Lemma recv_answer_length o k fd len open d :
  recv_answer o k fd len open = Some d -> (length d <= Z.to_nat len)%nat.
Proof.
  intros H. apply recv_answer_some in H. destruct H as [_ [d0 [_ ->]]].
  apply firstn_le_length.
Qed.

(** What one turn does to the locals and the descriptor table. *)
Lemma turn_frame p o k m m' :
  iteration_of p o k m = Ret tt m' ->
  dest (vars m') = dest (vars m) /\
  sockfd (vars m') = sockfd (vars m) /\
  maxsock (vars m') = maxsock (vars m) /\
  (length (buf (vars m)) = Z.to_nat BUFSZ ->
   length (buf (vars m')) = Z.to_nat BUFSZ) /\
  (closeneeded (vars m') = 0 \/ closeneeded (vars m') = 1) /\
  fds m' = (if closeneeded (vars m') =? 0 then fds m else closed_both m).
Proof.
  intros H. pose proof (iteration_turn p o k m) as T. rewrite H in T.
  inversion T; subst; clear T;
    cbn [turned vars fds dest sockfd maxsock buf closeneeded];
    repeat split; auto.
  all: try (destruct (_ <=? 0); cbn; auto; fail).
  intros Hb. rewrite length_app, length_skipn.
  match goal with Hr : recv_answer _ _ _ _ _ = Some _ |- _ =>
    apply recv_answer_length in Hr end.
  lia.
Qed.

Lemma turn_inv p o k m m' :
  loop_inv m -> iteration_of p o k m = Ret tt m' -> loop_inv m'.
Proof.
  intros [Hb Hd Hs H0 H1] H. apply turn_frame in H.
  destruct H as [Ed [Es [Em [Eb _]]]].
  constructor; unfold sock in *; rewrite ?Ed, ?Es, ?Em; auto.
Qed.

(** The invariant holds at the start of every turn of a run. *)
Lemma main_inv p o argv n m :
  main_of p o argv n = Ret tt m -> loop_inv m.
Proof.
  revert m. induction n as [|n IH]; intros m H.
  - rewrite main_zero in H. eapply setup_inv; eassumption.
  - rewrite main_succ in H.
    destruct (main_of p o argv n) as [[] m0|c m0|s m0]; try discriminate.
    eapply turn_inv; [apply IH; reflexivity | eassumption].
Qed.

(* ===================================================================== *)
(** ** Properties of one turn                                             *)
(* ===================================================================== *)

Lemma turn_events_turned p o k m r b nb cl evs :
  iteration_of p o k m = r -> machine_of r = turned m b nb cl evs ->
  turn_events p o k m = evs.
Proof.
  intros <- H. unfold turn_events. apply emitted_app. rewrite H. reflexivity.
Qed.

(** Case analysis of turn [k] from [m]: the five cases of [turn], with the
    calls of the turn computed in each. *)
Ltac turn_cases p o k m :=
  let T := fresh "T" in
  let E := fresh "E" in
  pose proof (iteration_turn p o k m) as T;
  inversion T as
    [ Hpoll E
    | nb Hpoll Hr0 Hr1 E
    | i n Hpoll Hside Hrdy Hfirst Hrecv E
    | i d w Hpoll Hside Hrdy Hfirst Hrecv Hne Hlive Hw E
    | i d Hpoll Hside Hrdy Hfirst Hrecv Hne Hkill E ];
  clear T;
  [ assert (Hev : turn_events p o k m = [EvPoll o k m])
      by (unfold turn_events; rewrite <- E; apply emitted_app; reflexivity)
  | assert (Hev : turn_events p o k m = [EvPoll o k m])
      by (unfold turn_events; rewrite <- E; apply emitted_app; reflexivity)
  | assert (Hev : turn_events p o k m =
                  [EvPoll o k m; EvRecv (sock i (vars m)) BUFSZ n []]
                    ++ closes m)
      by (unfold turn_events; rewrite <- E; apply emitted_app; reflexivity)
  | assert (Hev : turn_events p o k m =
                  [EvPoll o k m;
                   EvRecv (sock i (vars m)) BUFSZ (Z.of_nat (length d)) d;
                   EvSend (sock (other i) (vars m)) d w]
                    ++ (if w <=? 0 then closes m else []))
      by (unfold turn_events; rewrite <- E; apply emitted_app; reflexivity)
  | assert (Hev : turn_events p o k m =
                  [EvPoll o k m;
                   EvRecv (sock i (vars m)) BUFSZ (Z.of_nat (length d)) d;
                   EvSigpipe (sock (other i) (vars m)) d])
      by (unfold turn_events; rewrite <- E; apply emitted_app; reflexivity) ].

Lemma sends_of_copy e0 e1 fd d w tl :
  sends (e0 :: e1 :: EvSend fd d w :: (if w <=? 0 then tl else [])) =
  sends [e0; e1] ++ EvSend fd d w :: (if w <=? 0 then sends tl else []).
Proof. destruct (w <=? 0); unfold sends; cbn [filter is_send];
  destruct (is_send e0), (is_send e1); reflexivity. Qed.

Lemma in_copy_events (e e0 e1 e2 : event) (b : bool) (tl : list event) :
  In e ([e0; e1; e2] ++ (if b then tl else [])) ->
  e = e0 \/ e = e1 \/ e = e2 \/ (b = true /\ In e tl).
Proof.
  cbn [app In]. intros [H | [H | [H | H]]]; auto.
  destruct b; [auto | destruct H].
Qed.

(** C4: at most one read and one write per turn; when [sockfd[0]] is in
    the set that [select] leaves, ready or not [sockfd[1]], the read of the
    turn is the one on [sockfd[0]] and its write, if any, goes to
    [sockfd[1]]: the second branch is not taken. *)
Theorem one_transfer_per_turn (p : variant) (o : oracle) (k : nat)
    (m : machine) :
  let evs := turn_events p o k m in
  (length (recvs evs) <= 1)%nat /\ (length (sends evs) <= 1)%nat /\
  (0 <= fst (polled o k m) -> ready o k m 0 = true ->
   (exists n d, recvs evs = [EvRecv (sock 0 (vars m)) BUFSZ n d]) /\
   (forall e, In e (sends evs) ->
              exists payload w, e = EvSend (sock 1 (vars m)) payload w)).
Proof.
  cbv zeta. turn_cases p o k m; rewrite Hev.
  - cbn. split; [lia|]. split; [lia|]. intros; lia.
  - cbn. split; [lia|]. split; [lia|]. intros; congruence.
  - cbn. split; [lia|]. split; [lia|]. intros _ R0. split.
    + destruct Hside as [-> | ->]; [eauto | ].
      rewrite Hfirst in R0 by reflexivity. discriminate.
    + intros e [].
  - assert (Hs : sends ([EvPoll o k m;
                   EvRecv (sock i (vars m)) BUFSZ (Z.of_nat (length d)) d;
                   EvSend (sock (other i) (vars m)) d w]
                    ++ (if w <=? 0 then closes m else []))
                 = [EvSend (sock (other i) (vars m)) d w])
      by (destruct (w <=? 0); reflexivity).
    assert (Hrc : recvs ([EvPoll o k m;
                   EvRecv (sock i (vars m)) BUFSZ (Z.of_nat (length d)) d;
                   EvSend (sock (other i) (vars m)) d w]
                    ++ (if w <=? 0 then closes m else []))
                 = [EvRecv (sock i (vars m)) BUFSZ (Z.of_nat (length d)) d])
      by (destruct (w <=? 0); reflexivity).
    rewrite Hs, Hrc. cbn [length]. split; [lia|]. split; [lia|].
    intros _ R0.
    assert (Hi : i = 0%nat).
    { destruct Hside as [-> | ->]; [reflexivity | ].
      rewrite Hfirst in R0 by reflexivity. discriminate. }
    subst i. split; [eauto|].
    intros e [<- | []]. cbn [other Nat.sub]. eauto.
  - cbn. split; [lia|]. split; [lia|]. intros _ R0. split.
    + destruct Hside as [-> | ->]; [eauto | ].
      rewrite Hfirst in R0 by reflexivity. discriminate.
    + intros e [].
Qed.

Lemma one_transfer_per_turn_witness :
  0 <= fst (polled o_relay 0 (machine_of (Rev.main o_relay sample_argv 0))) /\
  ready o_relay 0 (machine_of (Rev.main o_relay sample_argv 0)) 0 = true /\
  ready o_relay 0 (machine_of (Rev.main o_relay sample_argv 0)) 1 = true /\
  exists n d,
    recvs (turn_events RevDatapipe o_relay 0
             (machine_of (Rev.main o_relay sample_argv 0))) =
    [EvRecv 3 BUFSZ n d].
Proof.
  split; [vm_compute; discriminate|].
  split; [vm_compute; reflexivity|].
  split; [vm_compute; reflexivity|].
  apply (one_transfer_per_turn RevDatapipe o_relay 0
           (machine_of (Rev.main o_relay sample_argv 0))).
  - vm_compute; discriminate.
  - vm_compute; reflexivity.
Defined.

Lemma send_answer_le o k fd d open :
  send_answer o k fd d open <= Z.of_nat (length d).
Proof.
  unfold send_answer. destruct (mem fd open); [|lia].
  destruct (o_send o k); lia.
Qed.

(** C5: the flag is set exactly when the read or the write of the turn
    returned zero or less; a write that returned a positive count, short or
    not, leaves the flag clear and both descriptors open, and is the only
    write of the turn. *)
Theorem flag_iff_failed_io (p : variant) (o : oracle) (k : nat)
    (m m' : machine) :
  iteration_of p o k m = Ret tt m' ->
  let evs := turn_events p o k m in
  (closeneeded (vars m') = 1 <-> failed_io evs) /\
  (closeneeded (vars m') = 0 \/ closeneeded (vars m') = 1) /\
  (forall fd payload w,
     In (EvSend fd payload w) evs -> 0 < w ->
     w <= Z.of_nat (length payload) /\
     closeneeded (vars m') = 0 /\
     sends evs = [EvSend fd payload w] /\
     fds m' = fds m).
Proof.
  intros Hit. cbv zeta. unfold failed_io.
  turn_cases p o k m; rewrite Hev; rewrite Hit in E; inversion E; subst m';
    clear E; cbn [turned vars fds closeneeded].
  - split; [|split; [auto|]].
    + split; [discriminate|].
      intros [[fd [len [n [d [[H|[]] _]]]]] | [fd [pl [w [[H|[]] _]]]]];
        discriminate.
    + intros fd pl w [H|[]]; discriminate.
  - split; [|split; [auto|]].
    + split; [intros _|reflexivity]. left.
      exists (sock i (vars m)), BUFSZ, n, []. split; [cbn; auto|].
      destruct Hrecv as [[-> _]|[-> _]]; lia.
    + intros fd pl w [H|[H|[H|[H|[]]]]]; discriminate.
  - split; [|split].
    + destruct (w <=? 0) eqn:Hw0.
      * split; [intros _|reflexivity]. right.
        exists (sock (other i) (vars m)), d, w. split; [cbn; auto|].
        apply Z.leb_le in Hw0. exact Hw0.
      * apply Z.leb_gt in Hw0. split; [discriminate|].
        intros [[fd [len [n [d' [Hin Hn]]]]] | [fd [pl [w' [Hin Hw']]]]].
        -- destruct Hin as [H|[H|[H|[]]]]; try discriminate.
           inversion H; subst fd len n d'.
           destruct d; [congruence | cbn in Hn; lia].
        -- destruct Hin as [H|[H|[H|[]]]]; try discriminate.
           inversion H; subst fd pl w'. lia.
    + destruct (w <=? 0); auto.
    + intros fd pl w' Hin Hpos.
      apply in_copy_events in Hin.
      destruct Hin as [H|[H|[H|[_ H]]]]; try discriminate.
      * inversion H; subst fd pl w'.
        assert (Hw0 : (w <=? 0) = false) by (apply Z.leb_gt; lia).
        rewrite Hw0. cbn [Z.eqb app]. repeat split; try reflexivity.
        rewrite Hw. apply send_answer_le.
      * destruct H as [H|[H|[]]]; discriminate.
Qed.

Lemma flag_iff_failed_io_witness :
  let m := machine_of (Rev.main o_short sample_argv 0) in
  let m' := machine_of (Rev.main o_short sample_argv 1) in
  In (EvSend 4 PING 2) (turn_events RevDatapipe o_short 0 m) /\
  closeneeded (vars m') = 0 /\
  sends (turn_events RevDatapipe o_short 0 m) = [EvSend 4 PING 2].
Proof.
  cbv zeta.
  assert (Hin : In (EvSend 4 PING 2)
                  (turn_events RevDatapipe o_short 0
                     (machine_of (Rev.main o_short sample_argv 0))))
    by (vm_compute; auto).
  split; [exact Hin|].
  pose proof (flag_iff_failed_io RevDatapipe o_short 0
                (machine_of (Rev.main o_short sample_argv 0))
                (machine_of (Rev.main o_short sample_argv 1))
                ltac:(vm_compute; reflexivity)) as H.
  cbv zeta in H. destruct H as [_ [_ H]].
  destruct (H 4 PING 2 Hin ltac:(lia)) as [_ [H0 [H1 _]]].
  split; assumption.
Defined.



(* ===================================================================== *)
(** ** [select] on the two descriptors                                    *)
(* ===================================================================== *)

Lemma select_answer_fail o k nfds set open :
  fst (select_answer o k nfds set open) < 0 ->
  select_answer o k nfds set open = (-1, set).
Proof.
  unfold select_answer.
  destruct (forallb _ _ && negb (sel_err (o_select o k))); cbn [fst];
    [lia | reflexivity].
Qed.

Lemma examined_both (m : machine) :
  loop_inv m ->
  filter (fun fd => (0 <=? fd) && (fd <? maxsock (vars m) + 1))
    (watched (vars m)) = watched (vars m).
Proof.
  intros [_ _ _ H0 H1]. unfold watched, FD_SET, FD_ZERO. cbn [filter].
  assert (E0 : (0 <=? sock 0 (vars m)) &&
               (sock 0 (vars m) <? maxsock (vars m) + 1) = true)
    by (apply andb_true_iff; split; [apply Z.leb_le | apply Z.ltb_lt]; lia).
  assert (E1 : (0 <=? sock 1 (vars m)) &&
               (sock 1 (vars m) <? maxsock (vars m) + 1) = true)
    by (apply andb_true_iff; split; [apply Z.leb_le | apply Z.ltb_lt]; lia).
  rewrite E0, E1. reflexivity.
Qed.

(** A closed descriptor in the set makes [select] fail. *)
Lemma polled_closed o k m i :
  loop_inv m -> side i -> mem (sock i (vars m)) (fds m) = false ->
  polled o k m = (-1, watched (vars m)).
Proof.
  intros Hinv Hi Hc. unfold polled, select_answer.
  rewrite (examined_both m Hinv).
  unfold watched, FD_SET, FD_ZERO. cbn [forallb].
  destruct Hi as [-> | ->]; rewrite Hc; cbn [andb];
    rewrite ?andb_false_r; reflexivity.
Qed.

(** With both descriptors open and no interruption it succeeds, and leaves
    in the set the descriptors that are readable. *)
Lemma polled_open o k m :
  loop_inv m ->
  mem (sock 0 (vars m)) (fds m) = true ->
  mem (sock 1 (vars m)) (fds m) = true ->
  sel_err (o_select o k) = false ->
  0 <= fst (polled o k m).
Proof.
  intros Hinv H0 H1 He. unfold polled, select_answer.
  rewrite (examined_both m Hinv).
  unfold watched, FD_SET, FD_ZERO. cbn [forallb].
  rewrite H0, H1, He. cbn [andb negb fst]. lia.
Qed.

(* ===================================================================== *)
(** ** Leaving the loop                                                   *)
(* ===================================================================== *)

Lemma failed_io_cases evs :
  failed_io evs ->
  exists e, In e evs /\
    ((exists fd len n d, e = EvRecv fd len n d /\ n <= 0) \/
     (exists fd payload w, e = EvSend fd payload w /\ w <= 0)).
Proof.
  intros [[fd [len [n [d [H Hn]]]]] | [fd [pl [w [H Hw]]]]].
  - exists (EvRecv fd len n d). split; [assumption|]. left. eauto 10.
  - exists (EvSend fd pl w). split; [assumption|]. right. eauto 10.
Qed.

(** A failed read or write leaves the flag set. *)
Lemma failed_io_sets_flag p o k m m' :
  iteration_of p o k m = Ret tt m' ->
  failed_io (turn_events p o k m) ->
  closeneeded (vars m') = 1.
Proof.
  intros Hit Hf. apply failed_io_cases in Hf. destruct Hf as [e [Hin He]].
  revert Hin.
  turn_cases p o k m; rewrite Hit in E; inversion E; subst m'; clear E;
    rewrite Hev; cbn [turned vars closeneeded]; intros Hin.
  - destruct Hin as [<-|[]].
    destruct He as [[? [? [? [? [? _]]]]]|[? [? [? [? _]]]]]; discriminate.
  - reflexivity.
  - destruct (w <=? 0) eqn:Hw0; [reflexivity|]. exfalso.
    apply Z.leb_gt in Hw0. cbn [app In] in Hin.
    destruct Hin as [<-|[<-|[<-|[]]]].
    + destruct He as [[? [? [? [? [? _]]]]]|[? [? [? [? _]]]]]; discriminate.
    + destruct He as [[fd [len [n0 [d0 [He Hn]]]]]|[? [? [? [? _]]]]];
        [|discriminate].
      inversion He; subst fd len n0 d0.
      destruct d; [congruence | cbn in Hn; lia].
    + destruct He as [[? [? [? [? [? _]]]]]|[fd [pl [w0 [He Hn]]]]];
        [discriminate|].
      inversion He; subst fd pl w0. lia.
Qed.

Lemma closed_both_closed (m : machine) :
  mem (sock 0 (vars m)) (closed_both m) = false /\
  mem (sock 1 (vars m)) (closed_both m) = false.
Proof.
  unfold closed_both. split.
  - apply mem_remove_mono. apply mem_remove_self.
  - apply mem_remove_self.
Qed.

Lemma turn_poll_failed p o k m :
  fst (polled o k m) < 0 ->
  iteration_of p o k m =
  Exit (status_select p)
    (mk_machine (vars m) (fds m) (trace m ++ [EvPoll o k m])).
Proof.
  intros Hneg. turn_cases p o k m; try lia. reflexivity.
Qed.

Lemma turn_exit_inv p o k m c m' :
  iteration_of p o k m = Exit c m' ->
  c = status_select p /\ fst (polled o k m) < 0 /\
  m' = mk_machine (vars m) (fds m) (trace m ++ [EvPoll o k m]).
Proof.
  intros H. turn_cases p o k m; rewrite H in E; try discriminate.
  inversion E; subst. auto.
Qed.

Lemma sock_frame (m m' : machine) i :
  sockfd (vars m') = sockfd (vars m) -> sock i (vars m') = sock i (vars m).
Proof. unfold sock. now intros ->. Qed.

(** After a turn that set the flag both descriptors are closed, and the
    next turn returns from [main] at its [select]. *)
Lemma exit_after_close p o k k' m m' :
  loop_inv m -> iteration_of p o k m = Ret tt m' ->
  closeneeded (vars m') = 1 ->
  is_open (sock 0 (vars m)) m' = false /\
  is_open (sock 1 (vars m)) m' = false /\
  iteration_of p o k' m' =
  Exit (status_select p)
    (mk_machine (vars m') (fds m')
       (trace m' ++
        [EvSelect (maxsock (vars m) + 1) (watched (vars m)) (-1)])).
Proof.
  intros Hinv Hit Hcl.
  pose proof (turn_inv _ _ _ _ _ Hinv Hit) as Hinv'.
  pose proof (turn_frame _ _ _ _ _ Hit) as [_ [Es [Em [_ [_ Ef]]]]].
  rewrite Hcl in Ef. cbn [Z.eqb] in Ef.
  pose proof (closed_both_closed m) as [C0 C1].
  unfold is_open. rewrite Ef. split; [exact C0|]. split; [exact C1|].
  assert (Hp : polled o k' m' = (-1, watched (vars m'))).
  { apply (polled_closed o k' m' 0%nat Hinv'); [left; reflexivity|].
    rewrite (sock_frame m m' 0 Es), Ef. exact C0. }
  rewrite turn_poll_failed by (rewrite Hp; cbn; lia).
  unfold EvPoll. rewrite Hp, Em. unfold watched.
  rewrite !(sock_frame m m' _ Es), Ef. reflexivity.
Qed.

(** C2: a turn in which the read or the write returned zero or an error
    sets the flag and closes both sockets before it ends; the next
    [select], given two closed descriptors, fails, and [main] returns
    there without any further read or write. *)
Theorem close_and_exit_on_failed_io (p : variant) (o : oracle)
    (argv : list string) (k : nat) (m : machine) :
  main_of p o argv k = Ret tt m ->
  failed_io (turn_events p o k m) ->
  exists m' m'',
    iteration_of p o k m = Ret tt m' /\
    closeneeded (vars m') = 1 /\
    (exists pre,
        turn_events p o k m =
        pre ++ [EvClose (sock 0 (vars m)); EvClose (sock 1 (vars m))]) /\
    is_open (sock 0 (vars m)) m' = false /\
    is_open (sock 1 (vars m)) m' = false /\
    iteration_of p o (S k) m' = Exit (status_select p) m'' /\
    emitted m' m'' =
      [EvSelect (maxsock (vars m) + 1) (watched (vars m)) (-1)] /\
    forall n, (k + 2 <= n)%nat ->
              main_of p o argv n = Exit (status_select p) m''.
Proof.
  intros Hrun Hfail.
  pose proof (main_inv _ _ _ _ _ Hrun) as Hinv.
  destruct (iteration_of p o k m) as [[] m'|c m'|s m'] eqn:Hit.
  2:{ exfalso. apply turn_exit_inv in Hit. destruct Hit as [_ [Hneg _]].
      apply failed_io_cases in Hfail. destruct Hfail as [e [Hin He]].
      revert Hin. turn_cases p o k m; try lia. rewrite Hev.
      intros [<-|[]]; destruct He as [[? [? [? [? [? _]]]]]|[? [? [? [? _]]]]];
        discriminate. }
  2:{ exfalso.
      apply failed_io_cases in Hfail. destruct Hfail as [e [Hin He]].
      revert Hin. turn_cases p o k m; rewrite Hit in E; try discriminate.
      rewrite Hev.
      intros [<-|[<-|[<-|[]]]];
        destruct He as [[fd [len [n0 [d0 [He Hn]]]]]|[? [? [? [He _]]]]];
        try discriminate.
      inversion He; subst fd len n0 d0.
      destruct d; [congruence | cbn in Hn; lia]. }
  pose proof (failed_io_sets_flag p o k m m' Hit Hfail) as Hcl.
  destruct (exit_after_close p o k (S k) m m' Hinv Hit Hcl) as [C0 [C1 Hnext]].
  exists m'. eexists. split; [reflexivity|]. split; [exact Hcl|].
  split.
  { revert Hcl. turn_cases p o k m; rewrite Hit in E; inversion E; subst m';
      rewrite Hev; cbn [turned vars closeneeded]; try discriminate.
    - intros _. exists [EvPoll o k m; EvRecv (sock i (vars m)) BUFSZ n []].
      reflexivity.
    - destruct (w <=? 0); [|discriminate]. intros _.
      exists [EvPoll o k m;
              EvRecv (sock i (vars m)) BUFSZ (Z.of_nat (length d)) d;
              EvSend (sock (other i) (vars m)) d w].
      reflexivity. }
  split; [exact C0|]. split; [exact C1|]. split; [exact Hnext|].
  split; [apply emitted_app; reflexivity|].
  intros n Hn. apply (main_exit_stable p o argv (S (S k))); [|lia].
  rewrite main_succ, main_succ, Hrun, Hit. exact Hnext.
Qed.

Lemma close_and_exit_on_failed_io_witness :
  let m := machine_of (Rev.main o_eof sample_argv 0) in
  failed_io (turn_events RevDatapipe o_eof 0 m) /\
  exists m' m'',
    iteration_of RevDatapipe o_eof 0 m = Ret tt m' /\
    closeneeded (vars m') = 1 /\
    main_of RevDatapipe o_eof sample_argv 2 =
      Exit (status_select RevDatapipe) m''.
Proof.
  cbv zeta.
  assert (Hf : failed_io (turn_events RevDatapipe o_eof 0
                            (machine_of (Rev.main o_eof sample_argv 0)))).
  { left. exists 3, 4096, 0, []. split; [vm_compute; auto | lia]. }
  split; [exact Hf|].
  destruct (close_and_exit_on_failed_io RevDatapipe o_eof sample_argv 0
              (machine_of (Rev.main o_eof sample_argv 0))
              ltac:(vm_compute; reflexivity) Hf)
    as [m' [m'' [Hit [Hcl [_ [_ [_ [_ [_ Hn]]]]]]]]].
  exists m', m''. split; [exact Hit|]. split; [exact Hcl|].
  apply (Hn 2%nat). lia.
Defined.

Lemma recv_answer_data o k fd open d :
  mem fd open = true -> o_recv o k = RecvData d -> d <> [] ->
  exists got, recv_answer o k fd BUFSZ open = Some got /\ got <> [].
Proof.
  intros Ho Hr Hd. unfold recv_answer. rewrite Ho, Hr.
  eexists. split; [reflexivity|].
  destruct d as [|x d]; [congruence|]. discriminate.
Qed.

Lemma send_answer_room o k fd d open a :
  mem fd open = true -> o_send o k = SendAccept (S a) -> d <> [] ->
  0 < send_answer o k fd d open.
Proof.
  intros Ho Hs Hd. unfold send_answer. rewrite Ho, Hs.
  destruct d as [|x d]; [congruence|]. cbn [length]. lia.
Qed.

(** In a quiet environment a turn over two open sockets neither returns
    nor closes anything. *)
Lemma quiet_turn p o k m :
  quiet o -> loop_inv m ->
  mem (sock 0 (vars m)) (fds m) = true ->
  mem (sock 1 (vars m)) (fds m) = true ->
  exists m', iteration_of p o k m = Ret tt m' /\
             fds m' = fds m /\ sockfd (vars m') = sockfd (vars m).
Proof.
  intros Hq Hinv H0 H1. destruct (Hq k) as [He [[d0 [Hr Hd0]] [a Hs]]].
  pose proof (polled_open o k m Hinv H0 H1 He) as Hpos.
  assert (Hopen : forall i, side i -> mem (sock i (vars m)) (fds m) = true)
    by (intros i [-> | ->]; assumption).
  turn_cases p o k m; try lia.
  - eexists. split; [reflexivity|]. split; reflexivity.
  - exfalso.
    destruct (recv_answer_data o k (sock i (vars m)) (fds m) d0
                (Hopen i Hside) Hr Hd0) as [got [Hg Hne]].
    destruct Hrecv as [[_ Hx]|[_ Hx]]; rewrite Hg in Hx;
      [discriminate | inversion Hx; congruence].
  - assert (Ho : side (other i))
      by (destruct Hside as [-> | ->]; [right | left]; reflexivity).
    pose proof (send_answer_room o k (sock (other i) (vars m)) d (fds m) a
                  (Hopen _ Ho) Hs Hne) as Hw0.
    rewrite <- Hw in Hw0.
    assert (Hf : (w <=? 0) = false) by (apply Z.leb_gt; exact Hw0).
    eexists. split; [reflexivity|]. rewrite Hf. split; reflexivity.
  - exfalso. unfold send_kills in Hkill. rewrite Hs, andb_false_r in Hkill.
    discriminate.
Qed.

(** A turn ends the process by a signal only inside its write: the
    [select] succeeded, the read brought data, and the write on the other
    descriptor raised SIGPIPE. *)
Lemma turn_killed_inv p o k m s m' :
  iteration_of p o k m = Killed s m' ->
  s = SIGPIPE /\ o_send o k = SendSigpipe /\ 0 <= fst (polled o k m) /\
  fds m' = fds m /\
  exists i d,
    side i /\ d <> [] /\
    is_open (sock (other i) (vars m)) m = true /\
    emitted m m' =
      [EvPoll o k m;
       EvRecv (sock i (vars m)) BUFSZ (Z.of_nat (length d)) d;
       EvSigpipe (sock (other i) (vars m)) d].
Proof.
  intros H. turn_cases p o k m; rewrite H in E; try discriminate.
  inversion E; subst s m'. clear E.
  unfold send_kills in Hkill. apply andb_true_iff in Hkill.
  destruct Hkill as [Hopen Hsig].
  split; [reflexivity|].
  split; [destruct (o_send o k); try discriminate; reflexivity|].
  split; [exact Hpoll|]. split; [reflexivity|].
  exists i, d. split; [exact Hside|]. split; [exact Hne|].
  split; [exact Hopen|]. apply emitted_app. reflexivity.
Qed.

(** C7, as the code has it.  Once in the loop, [main] returns only from
    the [return] under the failed [select], with that statement's nonzero
    status, so the [return 0] after the loop is never reached; the one
    other way the process ends is a write that raises SIGPIPE, which
    terminates it inside the call, after a [select] that succeeded.  In an
    environment without errors, after two successful connects, the loop is
    still running after any number of turns. *)
Theorem loop_left_by_select_failure_or_sigpipe (p : variant) (o : oracle)
    (argv : list string) :
  (forall k m c m',
     main_of p o argv k = Ret tt m ->
     main_of p o argv (S k) = Exit c m' ->
     c = status_select p /\ c <> 0 /\
     fst (polled o k m) < 0 /\
     emitted m m' = [EvPoll o k m]) /\
  (forall k m s m',
     main_of p o argv k = Ret tt m ->
     main_of p o argv (S k) = Killed s m' ->
     s = SIGPIPE /\ o_send o k = SendSigpipe /\
     0 <= fst (polled o k m) /\
     exists i d,
       side i /\ d <> [] /\
       emitted m m' =
         [EvPoll o k m;
          EvRecv (sock i (vars m)) BUFSZ (Z.of_nat (length d)) d;
          EvSigpipe (sock (other i) (vars m)) d]) /\
  (forall m0 n,
     main_of p o argv 0 = Ret tt m0 ->
     match main_of p o argv n with
     | Ret _ _ => True
     | Exit c _ => c = status_select p /\ c <> 0
     | Killed s _ => s = SIGPIPE
     end) /\
  (forall m0,
     main_of p o argv 0 = Ret tt m0 ->
     (forall k, o_send o k <> SendSigpipe) ->
     forall n s m, main_of p o argv n <> Killed s m) /\
  (forall m0,
     main_of p o argv 0 = Ret tt m0 ->
     o_connect o 0 = true -> o_connect o 1 = true -> quiet o ->
     forall n, exists m, main_of p o argv n = Ret tt m).
Proof.
  assert (Hexit : forall k m c m',
            main_of p o argv k = Ret tt m ->
            main_of p o argv (S k) = Exit c m' ->
            c = status_select p /\ c <> 0 /\
            fst (polled o k m) < 0 /\
            emitted m m' = [EvPoll o k m]).
  { intros k m c m' Hrun Hexit. rewrite main_succ, Hrun in Hexit.
    apply turn_exit_inv in Hexit. destruct Hexit as [-> [Hneg ->]].
    split; [reflexivity|]. split; [destruct p; discriminate|].
    split; [exact Hneg|]. apply emitted_app. reflexivity. }
  assert (Hkilled : forall k m s m',
            main_of p o argv k = Ret tt m ->
            main_of p o argv (S k) = Killed s m' ->
            s = SIGPIPE /\ o_send o k = SendSigpipe /\
            0 <= fst (polled o k m) /\
            exists i d,
              side i /\ d <> [] /\
              emitted m m' =
                [EvPoll o k m;
                 EvRecv (sock i (vars m)) BUFSZ (Z.of_nat (length d)) d;
                 EvSigpipe (sock (other i) (vars m)) d]).
  { intros k m s m' Hrun Hk. rewrite main_succ, Hrun in Hk.
    apply turn_killed_inv in Hk.
    destruct Hk as [Hs [Ho [Hp [_ [i [d [Hi [Hd [_ He]]]]]]]]].
    split; [exact Hs|]. split; [exact Ho|]. split; [exact Hp|].
    exists i, d. auto. }
  split; [exact Hexit|]. split; [exact Hkilled|]. split; [|split].
  - intros m0 n H0. induction n as [|n IH]; [rewrite H0; exact I|].
    destruct (main_of p o argv n) as [[] m|c m|s m] eqn:Hn.
    + destruct (main_of p o argv (S n)) as [[] m'|c' m'|s' m'] eqn:Hs;
        [exact I | | ].
      * destruct (Hexit n m c' m' Hn Hs) as [Hc [Hnz _]]. auto.
      * destruct (Hkilled n m s' m' Hn Hs) as [Hsig _]. exact Hsig.
    + rewrite main_succ, Hn. exact IH.
    + rewrite main_succ, Hn. exact IH.
  - intros m0 H0 Hnosig n. induction n as [|n IH]; intros s m Hk.
    + rewrite H0 in Hk. discriminate.
    + destruct (main_of p o argv n) as [[] m1|c m1|s1 m1] eqn:Hn.
      * destruct (Hkilled n m1 s m Hn Hk) as [_ [Ho _]].
        exact (Hnosig n Ho).
      * rewrite main_succ, Hn in Hk. discriminate.
      * exact (IH s1 m1 eq_refl).
  - intros m0 H0 Hc0 Hc1 Hq n.
    assert (Hgo : exists m, main_of p o argv n = Ret tt m /\
                            fds m = fds m0 /\
                            sockfd (vars m) = sockfd (vars m0)).
    { induction n as [|n IH]; [exists m0; auto|].
      destruct IH as [m [Hrun [Ef Es]]].
      pose proof (main_inv _ _ _ _ _ Hrun) as Hinv.
      rewrite main_zero in H0. apply setup_sockets in H0.
      destruct H0 as [E0 [E1 [_ [_ [_ [_ [_ [_ [Hfds _]]]]]]]]].
      rewrite Hc0, Hc1 in Hfds. cbn [app] in Hfds.
      assert (O0 : mem (sock 0 (vars m)) (fds m) = true).
      { rewrite (sock_frame m0 m 0 Es), Ef, Hfds, E0. cbn [mem existsb].
        rewrite Z.eqb_refl. apply orb_true_iff. right. reflexivity. }
      assert (O1 : mem (sock 1 (vars m)) (fds m) = true).
      { rewrite (sock_frame m0 m 1 Es), Ef, Hfds, E1. cbn [mem existsb].
        rewrite Z.eqb_refl. reflexivity. }
      destruct (quiet_turn p o n m Hq Hinv O0 O1) as [m' [Hit [Ef' Es']]].
      exists m'. rewrite main_succ, Hrun. split; [exact Hit|].
      split; congruence. }
    destruct Hgo as [m [Hrun _]]. exists m. exact Hrun.
Qed.

Lemma o_relay_quiet : quiet o_relay.
Proof.
  intros k. split; [reflexivity|]. split.
  - exists PING. split; [reflexivity | discriminate].
  - exists 4095%nat. reflexivity.
Qed.

Lemma loop_left_by_select_failure_or_sigpipe_witness :
  (exists m, main_of RevDatapipe o_relay sample_argv 1000 = Ret tt m) /\
  (exists m m',
     main_of RevDatapipe o_eof sample_argv 1 = Ret tt m /\
     main_of RevDatapipe o_eof sample_argv 2 = Exit (-1) m' /\
     status_select RevDatapipe <> 0) /\
  (exists m m',
     main_of RevDatapipe o_sigpipe sample_argv 0 = Ret tt m /\
     main_of RevDatapipe o_sigpipe sample_argv 1 = Killed SIGPIPE m' /\
     o_send o_sigpipe 0 = SendSigpipe).
Proof.
  destruct (loop_left_by_select_failure_or_sigpipe RevDatapipe o_relay
              sample_argv) as [_ [_ [_ [_ Hlive]]]].
  split; [|split].
  - apply (Hlive (machine_of (main_of RevDatapipe o_relay sample_argv 0))
             ltac:(vm_compute; reflexivity) eq_refl eq_refl o_relay_quiet).
  - destruct (loop_left_by_select_failure_or_sigpipe RevDatapipe o_eof
                sample_argv) as [Hexit _].
    exists (machine_of (main_of RevDatapipe o_eof sample_argv 1)),
           (machine_of (main_of RevDatapipe o_eof sample_argv 2)).
    assert (H1 : main_of RevDatapipe o_eof sample_argv 1 =
                 Ret tt (machine_of (main_of RevDatapipe o_eof sample_argv 1)))
      by (vm_compute; reflexivity).
    assert (H2 : main_of RevDatapipe o_eof sample_argv 2 =
                 Exit (-1)
                   (machine_of (main_of RevDatapipe o_eof sample_argv 2)))
      by (vm_compute; reflexivity).
    split; [exact H1|]. split; [exact H2|].
    destruct (Hexit _ _ _ _ H1 H2) as [_ [Hnz _]].
    intros Hz. apply Hnz. rewrite <- Hz. vm_compute. reflexivity.
  - destruct (loop_left_by_select_failure_or_sigpipe RevDatapipe o_sigpipe
                sample_argv) as [_ [Hkill _]].
    exists (machine_of (main_of RevDatapipe o_sigpipe sample_argv 0)),
           (machine_of (main_of RevDatapipe o_sigpipe sample_argv 1)).
    assert (H0 : main_of RevDatapipe o_sigpipe sample_argv 0 =
                 Ret tt
                   (machine_of (main_of RevDatapipe o_sigpipe sample_argv 0)))
      by (vm_compute; reflexivity).
    assert (H1 : main_of RevDatapipe o_sigpipe sample_argv 1 =
                 Killed SIGPIPE
                   (machine_of (main_of RevDatapipe o_sigpipe sample_argv 1)))
      by (vm_compute; reflexivity).
    split; [exact H0|]. split; [exact H1|].
    destruct (Hkill _ _ _ _ H0 H1) as [_ [Ho _]]. exact Ho.
Defined.

(** C7 as stated fails: with the second connection broken, the first turn
    reads "PING" from the first and is terminated by SIGPIPE inside the
    write to the second.  The process has left the loop, in both programs,
    although no [select] has failed and [main] has not returned. *)
Lemma sigpipe_leaves_loop :
  let r0 := main_of RevDatapipe o_sigpipe sample_argv 0 in
  let r1 := main_of RevDatapipe o_sigpipe sample_argv 1 in
  r0 = Ret tt (machine_of r0) /\
  r1 = Killed SIGPIPE (machine_of r1) /\
  emitted (machine_of r0) (machine_of r1) =
    [EvSelect 5 [4; 3] 2; EvRecv 3 4096 4 PING; EvSigpipe 4 PING] /\
  select_failed (trace (machine_of r1)) = false /\
  main_of RevDatapipe o_sigpipe sample_argv 9 = r1 /\
  main_of Datapipe o_sigpipe sample_argv 9 =
    Killed SIGPIPE (machine_of (main_of Datapipe o_sigpipe sample_argv 9)) /\
  select_failed
    (trace (machine_of (main_of Datapipe o_sigpipe sample_argv 9))) = false.
Proof.
  cbv zeta.
  split; [vm_compute; reflexivity|].
  split; [vm_compute; reflexivity|].
  split; [vm_compute; reflexivity|].
  split; [vm_compute; reflexivity|].
  split; [vm_compute; reflexivity|].
  split; vm_compute; reflexivity.
Qed.

(* ===================================================================== *)
(** ** Properties of setup                                                *)
(* ===================================================================== *)

(** A dial whose checks pass goes on, whatever [connect] returns. *)
Lemma dial_ok p o argv i m a :
  (i < length (dest (vars m)))%nat ->
  (i < length (sockfd (vars m)))%nat ->
  port_of argv i <> 0 ->
  resolved o (host_of argv i) = Some a ->
  0 <= o_socket o i ->
  mem (o_socket o i) (fds m) = false ->
  dial_of p o argv i m =
  Ret tt
    (mk_machine (dialed_vars argv i a (o_socket o i) (vars m))
       (if o_connect o i then o_socket o i :: fds m else fds m)
       (trace m ++ dial_events o argv i a)).
Proof.
  intros Hd Hs Hp Hr Hso Hm.
  pose proof (dial_dialed p o argv i m Hd Hs) as D.
  inversion D as [Hp0 E | Hp0 Hr0 E | a' Hp0 Hr0 Hbad E
                 | a' Hp0 Hr0 Hs0 Hm0 Hc E | a' Hp0 Hr0 Hs0 Hm0 Hc E];
    clear D; try congruence.
  - exfalso. destruct Hbad as [Hneg | Hopen]; [lia | congruence].
  - assert (a' = a) by congruence. subst a'.
    unfold dial_events. rewrite Hc. reflexivity.
  - assert (a' = a) by congruence. subst a'.
    unfold dial_events. rewrite Hc. reflexivity.
Qed.

Lemma dial_bad_port p o argv i m :
  (i < length (dest (vars m)))%nat ->
  (i < length (sockfd (vars m)))%nat ->
  port_of argv i = 0 ->
  dial_of p o argv i m =
  Exit (status_port p)
    (mk_machine (set_dest i (mk_sockaddr AF_INET 0 0) (vars m)) (fds m)
       (trace m ++ [EvStderr "invalid target port"])).
Proof.
  intros Hd Hs Hp.
  pose proof (dial_dialed p o argv i m Hd Hs) as D.
  inversion D; clear D; congruence.
Qed.

(** [htons] and the cast keep zero and nothing else at zero. *)
Lemma htons_zero (x : Z) : 0 <= x < 65536 -> (htons x = 0 <-> x = 0).
Proof.
  intros Hx. unfold htons. rewrite Z.lor_eq_0_iff, Z.shiftl_eq_0_iff by lia.
  change 255 with (Z.ones 8). rewrite Z.land_ones by lia.
  rewrite Z.shiftr_div_pow2 by lia. change (2 ^ 8) with 256.
  split.
  - intros [Hlo Hhi].
    rewrite (Z.div_mod x 256) by lia. rewrite Hlo, Hhi. reflexivity.
  - intros ->. split; reflexivity.
Qed.

Lemma port_of_zero argv i :
  port_of argv i = 0 <-> atol (arg argv (2 + i * 2)) mod 65536 = 0.
Proof.
  unfold port_of, to_ushort. apply htons_zero.
  apply Z.mod_pos_bound. lia.
Qed.

Lemma dialed_vars_lengths_init argv a s :
  length (dest (dialed_vars argv 0 a s init_locals)) = 2%nat /\
  length (sockfd (dialed_vars argv 0 a s init_locals)) = 2%nat.
Proof. split; reflexivity. Qed.

(** When every check passes, setup ends in the state the two dials (and
    the fork) leave. *)
Lemma setup_ok p o argv :
  passes_checks p o argv ->
  exists a0 a1 forked,
    forked = match p with
             | RevDatapipe => []
             | Datapipe => [EvFork (o_fork o); EvSetsid]
             end /\
    setup_of p o argv (init_machine o) =
    Ret tt
      (mk_machine
         (dialed_vars argv 1 a1 (o_socket o 1)
            (dialed_vars argv 0 a0 (o_socket o 0) init_locals))
         ((if o_connect o 1 then [o_socket o 1] else []) ++
          (if o_connect o 0 then [o_socket o 0] else []) ++ o_inherited o)
         (dial_events o argv 0 a0 ++ dial_events o argv 1 a1 ++ forked)).
Proof.
  intros [Hargc [Hend [Hf0 [Hf1 Hfork]]]].
  destruct (Hend 0%nat (or_introl eq_refl)) as [Hp0 [Hr0 Hs0]].
  destruct (Hend 1%nat (or_intror eq_refl)) as [Hp1 [Hr1 Hs1]].
  destruct (resolved o (host_of argv 0)) as [a0|] eqn:Ea0; [|congruence].
  destruct (resolved o (host_of argv 1)) as [a1|] eqn:Ea1; [|congruence].
  exists a0, a1. eexists. split; [reflexivity|].
  rewrite setup_eq, Hargc. cbn [Z.eqb Pos.eqb].
  rewrite (dial_ok p o argv 0 (init_machine o) a0) by
    (try assumption; cbn; lia).
  cbn [vars fds trace init_machine].
  pose proof (dialed_vars_lengths_init argv a0 (o_socket o 0)) as [Ld Ls].
  rewrite (dial_ok p o argv 1 _ a1); cbn [vars fds trace];
    [ | rewrite Ld; lia | rewrite Ls; lia | assumption | assumption
      | assumption | destruct (o_connect o 0); exact Hf1 ].
  cbn [app].
  assert (Efds : (if o_connect o 1
                  then o_socket o 1 ::
                       (if o_connect o 0 then o_socket o 0 :: o_inherited o
                        else o_inherited o)
                  else if o_connect o 0 then o_socket o 0 :: o_inherited o
                       else o_inherited o) =
                 (if o_connect o 1 then [o_socket o 1] else []) ++
                 (if o_connect o 0 then [o_socket o 0] else []) ++
                 o_inherited o)
    by (destruct (o_connect o 1), (o_connect o 0); reflexivity).
  destruct p; cbn [after_dials vars fds trace].
  - rewrite app_nil_r, Efds. reflexivity.
  - destruct (Hfork eq_refl) as [Hn1 Hle].
    assert (E1 : (o_fork o =? -1) = false) by (apply Z.eqb_neq; exact Hn1).
    assert (E2 : (o_fork o >? 0) = false)
      by (rewrite Z.gtb_ltb; apply Z.ltb_ge; exact Hle).
    rewrite E1, E2, Efds, <- app_assoc. reflexivity.
Qed.

Lemma entered_passes p o argv m :
  main_of p o argv 0 = Ret tt m -> passes_checks p o argv.
Proof.
  rewrite main_zero. intros H.
  pose proof (setup_sockets _ _ _ _ H) as
    [_ [_ [_ [_ [_ [_ [_ [_ [_ [Hm0 Hm1]]]]]]]]]].
  apply setup_entered in H. destruct H as [Hargc [m1 [m2 [H0 [H1 H2]]]]].
  pose proof H0 as H0'.
  apply dial_ret in H0; [| cbn; lia | cbn; lia].
  destruct H0 as [a0 [Hp0 [Hr0 [Hs0 [_ [Hv0 _]]]]]].
  apply dial_ret in H1.
  2,3: pose proof (dialed_vars_lengths_init argv a0 (o_socket o 0))
         as [Ld Ls]; cbn [vars init_machine] in Hv0;
       rewrite Hv0, ?Ld, ?Ls; lia.
  destruct H1 as [a1 [Hp1 [Hr1 [Hs1 _]]]].
  apply after_dials_ret in H2. destruct H2 as [_ [_ Hfork]].
  split; [exact Hargc|]. split; [|split; [exact Hm0|split; [exact Hm1|]]].
  - intros i [-> | ->]; (split; [assumption|]); (split; [congruence|]);
      assumption.
  - intros ->. destruct Hfork as [[Hx _] | [_ [Hn [Hle _]]]];
      [discriminate | auto].
Qed.

(** C3: when the other checks of setup pass, the loop is entered whatever
    the two connects return; a failed connect is followed by its
    [perror] and the close of that one socket, and setup closes nothing
    else.  Conversely the loop is entered only past all those other
    checks: each of them is fatal. *)
Theorem connect_failure_not_fatal (p : variant) (o : oracle)
    (argv : list string) :
  (passes_checks p o argv ->
   exists m,
     main_of p o argv 0 = Ret tt m /\
     (forall i, side i -> o_connect o i = false ->
        exists pre d post,
          trace m =
          pre ++ [EvConnect (o_socket o i) d (-1); EvPerror "connect";
                  EvClose (o_socket o i)] ++ post) /\
     (forall fd, In (EvClose fd) (trace m) ->
        exists i, side i /\ o_connect o i = false /\ fd = o_socket o i)) /\
  (forall m, main_of p o argv 0 = Ret tt m -> passes_checks p o argv).
Proof.
  split; [|apply entered_passes].
  intros Hpass. destruct (setup_ok p o argv Hpass) as [a0 [a1 [fk [Hfk Hs]]]].
  eexists. split; [rewrite main_zero; exact Hs|].
  cbn [trace]. unfold dial_events. split.
  - intros i [-> | ->] Hc; rewrite Hc.
    + exists [EvSocket (o_socket o 0)]. eexists. eexists. reflexivity.
    + destruct (o_connect o 0).
      * exists [EvSocket (o_socket o 0);
                EvConnect (o_socket o 0)
                  (mk_sockaddr AF_INET (port_of argv 0) a0) 0;
                EvSocket (o_socket o 1)].
        eexists. eexists. reflexivity.
      * exists [EvSocket (o_socket o 0);
                EvConnect (o_socket o 0)
                  (mk_sockaddr AF_INET (port_of argv 0) a0) (-1);
                EvPerror "connect"; EvClose (o_socket o 0);
                EvSocket (o_socket o 1)].
        eexists. eexists. reflexivity.
  - intros fd Hin.
    assert (Hnf : ~ In (EvClose fd) fk)
      by (subst fk; destruct p; cbn; intuition discriminate).
    destruct (o_connect o 0) eqn:Hc0, (o_connect o 1) eqn:Hc1;
      cbn [app In] in Hin;
      repeat match goal with
             | H : _ \/ _ |- _ => destruct H as [H | H]
             | H : _ = EvClose _ |- _ =>
                 first [ discriminate H | injection H as <- ]
             end;
      try contradiction;
      first [ exists 0%nat; split; [left; reflexivity|];
              split; [assumption | reflexivity]
            | exists 1%nat; split; [right; reflexivity|];
              split; [assumption | reflexivity] ].
Qed.

Lemma o_refused_passes : passes_checks RevDatapipe o_refused sample_argv.
Proof.
  split; [reflexivity|]. split; [|split; [reflexivity|split; [reflexivity|]]].
  - intros i [-> | ->]; (split; [vm_compute; discriminate|]);
      (split; [vm_compute; discriminate|]); vm_compute; discriminate.
  - discriminate.
Qed.

Lemma connect_failure_not_fatal_witness :
  exists m,
    main_of RevDatapipe o_refused sample_argv 0 = Ret tt m /\
    In (EvClose 3) (trace m) /\ In (EvClose 4) (trace m).
Proof.
  destruct (connect_failure_not_fatal RevDatapipe o_refused sample_argv)
    as [Hin _].
  destruct (Hin o_refused_passes) as [m [Hm [Hclose _]]].
  exists m. split; [exact Hm|].
  destruct (Hclose 0%nat (or_introl eq_refl) eq_refl) as [pre0 [d0 [post0 E0]]].
  destruct (Hclose 1%nat (or_intror eq_refl) eq_refl) as [pre1 [d1 [post1 E1]]].
  split.
  - rewrite E0. apply in_or_app. right. cbn. auto.
  - rewrite E1. apply in_or_app. right. cbn. auto.
Defined.

(* ===================================================================== *)
(** ** The two descriptors                                                *)
(* ===================================================================== *)

(** The descriptors of the loop are those the two [socket] calls returned. *)
Lemma main_sockets p o argv n m :
  main_of p o argv n = Ret tt m ->
  sock 0 (vars m) = o_socket o 0 /\ sock 1 (vars m) = o_socket o 1.
Proof.
  revert m. induction n as [|n IH]; intros m H.
  - rewrite main_zero in H. apply setup_sockets in H.
    destruct H as [E0 [E1 _]]. auto.
  - rewrite main_succ in H.
    destruct (main_of p o argv n) as [[] m0|c m0|s m0]; try discriminate.
    destruct (IH m0 eq_refl) as [E0 E1].
    apply turn_frame in H. destruct H as [_ [Es _]].
    rewrite !(sock_frame m0 m _ Es). auto.
Qed.

(** After a first connect that succeeded the two descriptors differ, and
    no turn writes to the descriptor it read from. *)
Lemma no_echo_after_first_connect p o argv k m :
  main_of p o argv k = Ret tt m ->
  o_connect o 0 = true ->
  sock 0 (vars m) <> sock 1 (vars m) /\
  forall fd len n d fd' payload w,
    In (EvRecv fd len n d) (turn_events p o k m) ->
    In (EvSend fd' payload w) (turn_events p o k m) ->
    fd' <> fd.
Proof.
  intros Hrun Hc.
  destruct (main_sockets _ _ _ _ _ Hrun) as [E0 E1].
  assert (Hdiff : sock 0 (vars m) <> sock 1 (vars m)).
  { destruct (main_running_before _ _ _ _ _ Hrun 0%nat ltac:(lia))
      as [m0 H0].
    rewrite main_zero in H0. apply setup_sockets in H0.
    destruct H0 as [_ [_ [_ [_ [_ [_ [_ [_ [_ [_ Hm]]]]]]]]]].
    rewrite Hc in Hm. cbn [app mem existsb] in Hm.
    apply orb_false_iff in Hm. destruct Hm as [Hm _].
    apply Z.eqb_neq in Hm. rewrite E0, E1. congruence. }
  split; [exact Hdiff|].
  intros fd len n0 d0 fd' pl w0.
  turn_cases p o k m; rewrite Hev.
  - intros [H|[]]; discriminate.
  - intros [H|[]]; discriminate.
  - intros _ [H|[H|[H|[H|[]]]]]; discriminate.
  - intros Hr Hs. apply in_copy_events in Hr. apply in_copy_events in Hs.
    destruct Hr as [H|[H|[H|[_ H]]]]; try discriminate;
      [|destruct H as [H|[H|[]]]; discriminate].
    inversion H; subst fd len n0 d0. clear H.
    destruct Hs as [H|[H|[H|[_ H]]]]; try discriminate;
      [|destruct H as [H|[H|[]]]; discriminate].
    inversion H; subst fd' pl w0. clear H.
    destruct Hside as [-> | ->]; cbn [other Nat.sub]; congruence.
  - intros _ [H|[H|[H|[]]]]; discriminate.
Qed.

(** C1, as the code has it.  In a run whose first connect succeeded the
    two descriptors differ, and a turn that reads [n > 0] bytes [d] from
    [sockfd[i]] leaves them in the first [n] cells of the buffer and issues
    one write, on the other descriptor [sockfd[1 - i]], that offers exactly
    [d].  When that write returns [w], the other side gets the first [w]
    bytes of [d]: all of [d] when [w = n], less when it returned less, and
    after a positive [w], short or not, the flag is clear, nothing is
    closed and the loop goes on; when the write raises SIGPIPE the other
    side gets nothing and the process ends there. *)
Theorem bytes_offered_as_read (p : variant) (o : oracle)
    (argv : list string) (k : nat) (m : machine) :
  main_of p o argv k = Ret tt m ->
  o_connect o 0 = true ->
  let r := iteration_of p o k m in
  let m' := machine_of r in
  let evs := turn_events p o k m in
  sock 0 (vars m) <> sock 1 (vars m) /\
  forall fd len n0 d0,
    In (EvRecv fd len n0 d0) evs -> 0 < n0 ->
    exists i,
      side i /\ fd = sock i (vars m) /\
      sock (other i) (vars m) <> fd /\
      Z.of_nat (length d0) = n0 /\
      firstn (Z.to_nat n0) (buf (vars m')) = d0 /\
      received evs = d0 /\
      writes evs = [(sock (other i) (vars m), d0)] /\
      ((exists w,
          sends evs = [EvSend (sock (other i) (vars m)) d0 w] /\
          w <= n0 /\
          delivered evs = firstn (Z.to_nat w) d0 /\
          (w = n0 -> delivered evs = received evs) /\
          (w <= 0 -> delivered evs = []) /\
          (0 < w ->
           r = Ret tt m' /\ closeneeded (vars m') = 0 /\ fds m' = fds m /\
           evs = [EvPoll o k m; EvRecv fd len n0 d0;
                  EvSend (sock (other i) (vars m)) d0 w])) \/
       (r = Killed SIGPIPE m' /\
        sends evs = [] /\ delivered evs = [] /\
        evs = [EvPoll o k m; EvRecv fd len n0 d0;
               EvSigpipe (sock (other i) (vars m)) d0])).
Proof.
  intros Hrun Hc0. cbv zeta.
  destruct (no_echo_after_first_connect p o argv k m Hrun Hc0) as [Hdiff _].
  split; [exact Hdiff|].
  intros fd len n0 d0.
  turn_cases p o k m; rewrite Hev; rewrite <- ?E;
    cbn [machine_of turned vars buf]; intros Hin Hpos.
  - destruct Hin as [H|[]]; discriminate.
  - destruct Hin as [H|[]]; discriminate.
  - destruct Hin as [H|[H|[H|[H|[]]]]]; try discriminate.
    inversion H; subst fd len n0 d0.
    destruct Hrecv as [[-> _]|[-> _]]; lia.
  - apply in_copy_events in Hin.
    destruct Hin as [H|[H|[H|[_ H]]]]; try discriminate;
      [|destruct H as [H|[H|[]]]; discriminate].
    inversion H; subst fd len n0 d0. clear H.
    exists i. split; [assumption|]. split; [reflexivity|].
    split; [destruct Hside as [-> | ->]; cbn [other Nat.sub]; congruence|].
    split; [reflexivity|]. split; [apply firstn_length_app|].
    assert (Hrcv : received
              ([EvPoll o k m;
                EvRecv (sock i (vars m)) BUFSZ (Z.of_nat (length d)) d;
                EvSend (sock (other i) (vars m)) d w] ++
               (if w <=? 0 then closes m else [])) = d)
      by (destruct (w <=? 0); cbn; apply app_nil_r).
    assert (Hdel : delivered
              ([EvPoll o k m;
                EvRecv (sock i (vars m)) BUFSZ (Z.of_nat (length d)) d;
                EvSend (sock (other i) (vars m)) d w] ++
               (if w <=? 0 then closes m else [])) =
              firstn (Z.to_nat w) d)
      by (destruct (w <=? 0); cbn; apply app_nil_r).
    rewrite Hrcv, Hdel.
    split; [reflexivity|].
    split; [destruct (w <=? 0); reflexivity|].
    left. exists w.
    split; [destruct (w <=? 0); reflexivity|].
    split; [rewrite Hw; apply send_answer_le|].
    split; [reflexivity|].
    split; [intros ->; rewrite Nat2Z.id; apply firstn_all|].
    split.
    + intros Hle. destruct w; try lia; reflexivity.
    + intros Hw0.
      assert (Hf : (w <=? 0) = false) by (apply Z.leb_gt; exact Hw0).
      rewrite Hf. cbn [closeneeded fds Z.eqb app].
      repeat split; reflexivity.
  - destruct Hin as [H|[H|[H|[]]]]; try discriminate.
    inversion H; subst fd len n0 d0. clear H.
    exists i. split; [assumption|]. split; [reflexivity|].
    split; [destruct Hside as [-> | ->]; cbn [other Nat.sub]; congruence|].
    split; [reflexivity|]. split; [apply firstn_length_app|].
    split; [cbn; apply app_nil_r|].
    split; [reflexivity|].
    right. repeat split; reflexivity.
Qed.

Lemma bytes_offered_as_read_witness :
  let m := machine_of (main_of RevDatapipe o_short sample_argv 0) in
  let evs := turn_events RevDatapipe o_short 0 m in
  In (EvRecv 3 4096 4 PING) evs /\
  sock 0 (vars m) <> sock 1 (vars m) /\
  exists i,
    sock (other i) (vars m) <> 3 /\
    writes evs = [(sock (other i) (vars m), PING)].
Proof.
  cbv zeta.
  assert (Hin : In (EvRecv 3 4096 4 PING)
                  (turn_events RevDatapipe o_short 0
                     (machine_of (main_of RevDatapipe o_short sample_argv 0))))
    by (vm_compute; auto).
  split; [exact Hin|].
  destruct (bytes_offered_as_read RevDatapipe o_short sample_argv 0
              (machine_of (main_of RevDatapipe o_short sample_argv 0))
              ltac:(vm_compute; reflexivity) eq_refl)
    as [Hdiff Hturn].
  split; [exact Hdiff|].
  destruct (Hturn 3 4096 4 PING Hin ltac:(lia))
    as [i [_ [_ [Hne [_ [_ [_ [Hw _]]]]]]]].
  exists i. split; assumption.
Defined.

(** C1 as stated fails: with four bytes read and a write that takes two,
    the turn delivers "PI" of "PING", does not mark the session, and the
    next turn reads afresh over the same buffer. *)
Lemma short_write_truncates :
  let m := machine_of (Rev.main o_short sample_argv 0) in
  let m' := machine_of (Rev.main o_short sample_argv 1) in
  let evs := turn_events RevDatapipe o_short 0 m in
  Rev.main o_short sample_argv 1 = Ret tt m' /\
  received evs = [x50; x49; x4e; x47] /\
  delivered evs = [x50; x49] /\
  delivered evs <> received evs /\
  closeneeded (vars m') = 0 /\
  sends (turn_events RevDatapipe o_short 1 m') = [EvSend 4 PING 2].
Proof.
  cbv zeta.
  split; [vm_compute; reflexivity|].
  split; [vm_compute; reflexivity|].
  split; [vm_compute; reflexivity|].
  split; [vm_compute; discriminate|].
  split; vm_compute; reflexivity.
Qed.

(** C8 fails in the code: when the first connect is refused, its socket
    is closed and setup goes on; the second [socket] call gets the same
    descriptor, so [sockfd[0]] and [sockfd[1]] name the one connection
    to the second endpoint, and the turn that reads "PING" from it writes
    "PING" back to it. *)
Theorem echo_after_refused_first_connect (p : variant) :
  exists m,
    main_of p o_echo sample_argv 0 = Ret tt m /\
    In (EvConnect 3 (mk_sockaddr AF_INET (port_of sample_argv 0) 167772161)
          (-1)) (trace m) /\
    sock 0 (vars m) = 3 /\ sock 1 (vars m) = 3 /\
    turn_events p o_echo 0 m =
      [EvSelect 4 [3; 3] 1; EvRecv 3 4096 4 PING; EvSend 3 PING 4].
Proof.
  exists (machine_of (main_of p o_echo sample_argv 0)).
  destruct p.
  - split; [vm_compute; reflexivity|].
    split; [vm_compute; auto|].
    split; [vm_compute; reflexivity|].
    split; vm_compute; reflexivity.
  - split; [vm_compute; reflexivity|].
    split; [vm_compute; auto|].
    split; [vm_compute; reflexivity|].
    split; vm_compute; reflexivity.
Qed.

(* ===================================================================== *)
(** ** The two programs agree                                             *)
(* ===================================================================== *)

Lemma without_fork_app (t u : list event) :
  without_fork (t ++ u) = without_fork t ++ without_fork u.
Proof. apply filter_app. Qed.

Ltac split_conds :=
  repeat (cbv beta iota;
          match goal with
          | |- context [if ?c then _ else _] => destruct c eqn:?
          | |- context [match recv_answer ?a ?b ?c ?d ?e with _ => _ end] =>
              destruct (recv_answer a b c d e) eqn:?
          | |- context [match o_gethostbyname ?a ?b with _ => _ end] =>
              destruct (o_gethostbyname a b) eqn:?
          end;
          cbn [negb Z.eqb Z.leb Z.ltb Z.compare Pos.compare closeneeded
               vars fds trace set_closeneeded set_nbyt set_buf buf]).

Lemma dial_agree o argv i m :
  same_dial (Rev.dial o argv i m) (Dp.dial o argv i m).
Proof.
  destruct m as [v f t].
  cbv beta iota zeta delta
    [Rev.dial Dp.dial bind get_var modify ret return_ when upd_dest
     fprintf_stderr perror log inet_addr gethostbyname socket connect
     closesocket is_open vars fds trace].
  split_conds; cbn [same_dial]; unfold same_status;
    first [ reflexivity | split; [split; auto | reflexivity] ].
Qed.

Ltac same_trace :=
  unfold without_fork in *;
  repeat rewrite filter_app;
  cbn [filter is_fork_call negb app];
  repeat rewrite <- app_assoc; cbn [app];
  reflexivity.

(** One turn from states that agree ends in states that agree. *)
Lemma turn_agree o k m1 m2 :
  same_state m1 m2 ->
  same_run (Rev.iteration o k m1) (Dp.iteration o k m2).
Proof.
  destruct m1 as [[b1 d1 s1 ms1 nb1 cl1] f1 t1].
  destruct m2 as [[b2 d2 s2 ms2 nb2 cl2] f2 t2].
  unfold same_state. cbn [vars fds trace set_nbyt buf dest sockfd maxsock
                          nbyt closeneeded].
  intros [Hv [Hf Ht]]. injection Hv as -> -> -> -> ->. subst f1 t1.
  cbv beta iota zeta delta
    [Rev.iteration Dp.iteration bind get_var modify ret return_ when
     select recv send closesocket vars fds trace sock sockfd maxsock buf
     set_nbyt set_closeneeded set_buf dest nbyt closeneeded].
  split_conds; cbn [same_run]; unfold same_status, same_state;
    cbn [vars fds trace set_nbyt buf dest sockfd maxsock nbyt closeneeded];
    repeat split; auto; same_trace.
Qed.

Lemma same_run_step o k r1 r2 :
  same_run r1 r2 ->
  same_run
    match r1 with
    | Ret _ m => iteration_of RevDatapipe o k m
    | Exit c m => Exit c m
    | Killed s m => Killed s m
    end
    match r2 with
    | Ret _ m => iteration_of Datapipe o k m
    | Exit c m => Exit c m
    | Killed s m => Killed s m
    end.
Proof.
  destruct r1 as [[] m1|c1 m1|s1 m1], r2 as [[] m2|c2 m2|s2 m2];
    cbn [same_run]; try contradiction; [apply turn_agree | auto | auto].
Qed.

(** Setup issues no fork call before the fork step. *)
Lemma dial_fork_free p o argv i m :
  (i < length (dest (vars m)))%nat ->
  (i < length (sockfd (vars m)))%nat ->
  without_fork (trace m) = trace m ->
  without_fork (trace (machine_of (dial_of p o argv i m))) =
  trace (machine_of (dial_of p o argv i m)).
Proof.
  intros Hd Hs Ht. pose proof (dial_dialed p o argv i m Hd Hs) as D.
  inversion D; cbn [machine_of trace]; rewrite without_fork_app, Ht;
    reflexivity.
Qed.

Lemma same_state_refl (m : machine) :
  without_fork (trace m) = trace m -> same_state m m.
Proof. intros H. repeat split. symmetry. exact H. Qed.

(** Up to the fork the two setups go the same way: an early return
    happens in both, at the same statement and in the same state, and
    after two successful dials datapipe.c stands before its fork in the
    state in which revdatapipe.c enters the loop. *)
Lemma setup_agree o argv :
  match setup_of RevDatapipe o argv (init_machine o) with
  | Exit c m =>
      without_fork (trace m) = trace m /\
      exists c', setup_of Datapipe o argv (init_machine o) = Exit c' m /\
                 same_status c c'
  | Ret _ m =>
      without_fork (trace m) = trace m /\
      setup_of Datapipe o argv (init_machine o) = after_dials Datapipe o m
  | Killed _ _ => False
  end.
Proof.
  rewrite !setup_eq. destruct (5 =? argc argv).
  2:{ split; [reflexivity|]. exists 30. split; [reflexivity|].
      split; auto. }
  pose proof (dial_agree o argv 0 (init_machine o)) as A0.
  pose proof (dial_fork_free RevDatapipe o argv 0 (init_machine o)
                ltac:(cbn; lia) ltac:(cbn; lia) eq_refl) as F0.
  cbn [dial_of] in *.
  destruct (Rev.dial o argv 0 (init_machine o)) as [[] m1|c1 m1|k1 m1] eqn:E0,
           (Dp.dial o argv 0 (init_machine o)) as [[] m1'|c1' m1'|k1' m1'];
    cbn [same_dial machine_of] in A0, F0; try contradiction.
  3:{ apply (dial_alive RevDatapipe o argv 0 (init_machine o) k1 m1);
        [cbn; lia | cbn; lia | exact E0]. }
  2:{ destruct A0 as [Hst <-]. split; [exact F0|]. exists c1'. auto. }
  subst m1'.
  assert (L : length (dest (vars m1)) = 2%nat /\
              length (sockfd (vars m1)) = 2%nat).
  { apply (dial_ret RevDatapipe) in E0; [| cbn; lia | cbn; lia].
    destruct E0 as [a0 [_ [_ [_ [_ [Hv _]]]]]]. rewrite Hv.
    apply dialed_vars_lengths_init. }
  destruct L as [Ld Ls].
  pose proof (dial_agree o argv 1 m1) as A1.
  pose proof (dial_fork_free RevDatapipe o argv 1 m1
                ltac:(lia) ltac:(lia) F0) as F1.
  cbn [dial_of] in *.
  destruct (Rev.dial o argv 1 m1) as [[] m2|c2 m2|k2 m2] eqn:E1,
           (Dp.dial o argv 1 m1) as [[] m2'|c2' m2'|k2' m2'];
    cbn [same_dial machine_of] in A1, F1; try contradiction.
  - subst m2'. cbn [after_dials]. split; [exact F1 | reflexivity].
  - destruct A1 as [Hst <-]. split; [exact F1|]. exists c2'. auto.
  - apply (dial_alive RevDatapipe o argv 1 m1 k2 m2); [lia | lia | exact E1].
Qed.

(** C10: followed in the child of its fork, datapipe.c goes through the
    same states as revdatapipe.c and issues the same calls with the same
    arguments and results, the fork and setsid aside; where one returns
    the other does, with -1 in revdatapipe.c and 30, 25 or -1 in
    datapipe.c.  Outside the child datapipe.c returns at the fork (20 when
    it failed, 0 in the parent), in the state in which revdatapipe.c
    enters the loop, or earlier together with revdatapipe.c. *)
Theorem variants_agree (o : oracle) (argv : list string) (n : nat) :
  (in_child o ->
   same_run (main_of RevDatapipe o argv n) (main_of Datapipe o argv n)) /\
  (~ in_child o ->
   match main_of RevDatapipe o argv 0 with
   | Exit c m =>
       exists c', main_of Datapipe o argv n = Exit c' m /\ same_status c c'
   | Ret _ m =>
       main_of Datapipe o argv n =
       Exit (if o_fork o =? -1 then 20 else 0)
         (mk_machine (vars m) (fds m)
            (trace m ++
             EvFork (o_fork o)
             :: (if o_fork o =? -1 then [EvPerror "fork"] else [])))
   | Killed _ _ => False
   end).
Proof.
  pose proof (setup_agree o argv) as S.
  split.
  - intros [Hn1 Hle]. induction n as [|n IH].
    + rewrite !main_zero.
      destruct (setup_of RevDatapipe o argv (init_machine o))
        as [[] m|c m|s m]; [ | | contradiction ].
      * destruct S as [F ->]. cbn [after_dials].
        assert (E1 : (o_fork o =? -1) = false) by (apply Z.eqb_neq; exact Hn1).
        assert (E2 : (o_fork o >? 0) = false)
          by (rewrite Z.gtb_ltb; apply Z.ltb_ge; exact Hle).
        rewrite E1, E2. cbn [same_run]. unfold same_state.
        cbn [vars fds trace]. split; [reflexivity|]. split; [reflexivity|].
        rewrite without_fork_app, F. cbn. symmetry. apply app_nil_r.
      * destruct S as [F [c' [-> Hst]]]. cbn [same_run].
        split; [exact Hst | apply same_state_refl; exact F].
    + rewrite !main_succ. apply same_run_step. exact IH.
  - intros Hout.
    assert (Hf : o_fork o = -1 \/ 0 < o_fork o).
    { destruct (Z.eq_dec (o_fork o) (-1)) as [|Hne]; [auto|].
      destruct (Z_lt_le_dec 0 (o_fork o)) as [|Hle]; [auto|].
      exfalso. apply Hout. split; assumption. }
    rewrite main_zero.
    destruct (setup_of RevDatapipe o argv (init_machine o))
      as [[] m|c m|s m]; [ | | contradiction ].
    + destruct S as [_ S].
      apply (main_exit_stable Datapipe o argv 0); [|lia].
      rewrite main_zero, S. cbn [after_dials].
      destruct Hf as [Hf | Hf].
      * rewrite Hf. reflexivity.
      * assert (E1 : (o_fork o =? -1) = false) by (apply Z.eqb_neq; lia).
        assert (E2 : (o_fork o >? 0) = true)
          by (rewrite Z.gtb_ltb; apply Z.ltb_lt; exact Hf).
        rewrite E1, E2. reflexivity.
    + destruct S as [_ [c' [S Hst]]]. exists c'. split; [|exact Hst].
      apply (main_exit_stable Datapipe o argv 0); [|lia].
      rewrite main_zero. exact S.
Qed.

Lemma o_relay_in_child : in_child o_relay.
Proof. split; [discriminate | cbn; lia]. Qed.

Lemma variants_agree_witness :
  same_run (main_of RevDatapipe o_relay sample_argv 3)
           (main_of Datapipe o_relay sample_argv 3).
Proof.
  destruct (variants_agree o_relay sample_argv 3) as [H _].
  exact (H o_relay_in_child).
Defined.

(* ===================================================================== *)
(** ** Further properties of setup                                        *)
(* ===================================================================== *)

(** X1: with an argument count other than five, [main] returns at once
    with the status of the usage statement (-1 in revdatapipe.c, 30 in
    datapipe.c): the usage line, naming [argv[0]], is its only call, no
    socket is created and the locals are untouched. *)
Theorem wrong_argc_usage (p : variant) (o : oracle) (argv : list string)
    (n : nat) :
  argc argv <> 5 ->
  main_of p o argv n =
  Exit (status_usage p)
    (mk_machine init_locals (o_inherited o) [EvStderr (usage argv)]).
Proof.
  intros Hne. apply (main_exit_stable p o argv 0); [|lia].
  rewrite main_zero, setup_eq.
  destruct (5 =? argc argv) eqn:E; [|reflexivity].
  apply Z.eqb_eq in E. congruence.
Qed.

Lemma wrong_argc_usage_witness :
  main_of Datapipe o_relay ["datapipe"; "10.0.0.1"; "7000"]%string 4 =
  Exit (status_usage Datapipe)
    (mk_machine init_locals (o_inherited o_relay)
       [EvStderr (usage ["datapipe"; "10.0.0.1"; "7000"]%string)]).
Proof.
  apply (wrong_argc_usage Datapipe o_relay
           ["datapipe"; "10.0.0.1"; "7000"]%string 4).
  cbn. discriminate.
Defined.

(** X2: a host that [inet_addr] does not parse and [gethostbyname] does
    not know ends the dial: [perror] is the only call, no socket is
    created, and [main] returns -1 (revdatapipe.c) or 25 (datapipe.c).
    A host that [inet_addr] parses is dialled at that address and the
    resolver's answer plays no part. *)
Theorem unresolved_host_fatal (p : variant) (o : oracle)
    (argv : list string) (i : nat) (m : machine) :
  (i < length (dest (vars m)))%nat ->
  (i < length (sockfd (vars m)))%nat ->
  port_of argv i <> 0 ->
  (o_inet_addr o (host_of argv i) = INADDR_NONE ->
   o_gethostbyname o (host_of argv i) = None ->
   dial_of p o argv i m =
   Exit (status_host p)
     (mk_machine
        (set_dest i (mk_sockaddr AF_INET (port_of argv i) INADDR_NONE)
           (vars m))
        (fds m) (trace m ++ [EvPerror "gethostbyname"]))) /\
  (o_inet_addr o (host_of argv i) <> INADDR_NONE ->
   forall m', dial_of p o argv i m = Ret tt m' ->
   dst i (vars m') =
   mk_sockaddr AF_INET (port_of argv i) (o_inet_addr o (host_of argv i))).
Proof.
  intros Hd Hs Hp. split.
  - intros Hi Hg.
    assert (Hr : resolved o (host_of argv i) = None)
      by (unfold resolved; rewrite Hi, Z.eqb_refl; exact Hg).
    pose proof (dial_dialed p o argv i m Hd Hs) as D.
    inversion D; clear D; congruence.
  - intros Hi m' Hm'.
    assert (Hr : resolved o (host_of argv i) =
                 Some (o_inet_addr o (host_of argv i))).
    { unfold resolved.
      destruct (o_inet_addr o (host_of argv i) =? INADDR_NONE) eqn:E;
        [apply Z.eqb_eq in E; congruence | reflexivity]. }
    apply dial_ret in Hm'; [|assumption|assumption].
    destruct Hm' as [a [_ [Ha [_ [_ [Hv _]]]]]].
    rewrite Hr in Ha. injection Ha as <-. rewrite Hv.
    unfold dialed_vars, dst, set_maxsock, set_sockfd, set_dest.
    cbn [dest]. apply nth_upd_same. exact Hd.
Qed.

Lemma unresolved_host_fatal_witness :
  dial_of RevDatapipe o_nohost sample_argv 0 (init_machine o_nohost) =
  Exit (status_host RevDatapipe)
    (mk_machine
       (set_dest 0 (mk_sockaddr AF_INET (port_of sample_argv 0) INADDR_NONE)
          (vars (init_machine o_nohost)))
       (fds (init_machine o_nohost))
       (trace (init_machine o_nohost) ++ [EvPerror "gethostbyname"])).
Proof.
  destruct (unresolved_host_fatal RevDatapipe o_nohost sample_argv 0
              (init_machine o_nohost)
              ltac:(cbn; lia) ltac:(cbn; lia)
              ltac:(vm_compute; discriminate)) as [H _].
  exact (H eq_refl eq_refl).
Defined.

(** X3: when [socket] fails the dial ends there, in both programs with
    status -1: [sockfd[i]] holds -1, [perror] follows, [connect] is not
    called and the descriptor table is as before. *)
Theorem socket_failure_fatal (p : variant) (o : oracle)
    (argv : list string) (i : nat) (m : machine) (a : Z) :
  (i < length (dest (vars m)))%nat ->
  (i < length (sockfd (vars m)))%nat ->
  port_of argv i <> 0 ->
  resolved o (host_of argv i) = Some a ->
  o_socket o i < 0 \/ is_open (o_socket o i) m = true ->
  dial_of p o argv i m =
  Exit (-1)
    (mk_machine
       (set_sockfd i (-1)
          (set_dest i (mk_sockaddr AF_INET (port_of argv i) a) (vars m)))
       (fds m) (trace m ++ [EvSocket (-1); EvPerror "socket"])).
Proof.
  intros Hd Hs Hp Hr Hbad.
  pose proof (dial_dialed p o argv i m Hd Hs) as D.
  inversion D as [Hp0 E | Hp0 Hr0 E | a' Hp0 Hr0 Hbad' E
                 | a' Hp0 Hr0 Hs0 Hm0 Hc E | a' Hp0 Hr0 Hs0 Hm0 Hc E];
    clear D; try congruence.
  - assert (a' = a) by congruence. subst a'. destruct p; reflexivity.
  - exfalso. destruct Hbad as [H|H]; [lia | unfold is_open in H; congruence].
  - exfalso. destruct Hbad as [H|H]; [lia | unfold is_open in H; congruence].
Qed.

Lemma socket_failure_fatal_witness :
  dial_of Datapipe o_nosocket sample_argv 0 (init_machine o_nosocket) =
  Exit (-1)
    (mk_machine
       (set_sockfd 0 (-1)
          (set_dest 0
             (mk_sockaddr AF_INET (port_of sample_argv 0) 167772161)
             (vars (init_machine o_nosocket))))
       (fds (init_machine o_nosocket))
       (trace (init_machine o_nosocket) ++ [EvSocket (-1); EvPerror "socket"])).
Proof.
  apply (socket_failure_fatal Datapipe o_nosocket sample_argv 0
           (init_machine o_nosocket) 167772161).
  - cbn; lia.
  - cbn; lia.
  - vm_compute; discriminate.
  - reflexivity.
  - left. cbn. lia.
Defined.

(** X4: a run that enters the loop has dialled the endpoints as given on
    the command line, in order: endpoint [i] is [argv[1 + 2i]] resolved,
    with port [htons((unsigned short) atol(argv[2 + 2i]))] and family
    AF_INET; [connect] was called once per endpoint, on the descriptor
    [socket] had just returned and with exactly that address, which is
    also what [dest[i]] holds. *)
Theorem endpoints_dialled_as_given (p : variant) (o : oracle)
    (argv : list string) (m : machine) :
  main_of p o argv 0 = Ret tt m ->
  exists a0 a1,
    resolved o (arg argv 1) = Some a0 /\
    resolved o (arg argv 3) = Some a1 /\
    without_fork (trace m) =
      dial_events o argv 0 a0 ++ dial_events o argv 1 a1 /\
    dst 0 (vars m) =
      mk_sockaddr AF_INET (htons (to_ushort (atol (arg argv 2)))) a0 /\
    dst 1 (vars m) =
      mk_sockaddr AF_INET (htons (to_ushort (atol (arg argv 4)))) a1.
Proof.
  rewrite main_zero. intros Hrun.
  apply setup_entered in Hrun. destruct Hrun as [_ [m1 [m2 [H0 [H1 H2]]]]].
  apply dial_ret in H0; [| cbn; lia | cbn; lia].
  destruct H0 as [a0 [_ [Hr0 [_ [_ [Hv0 [_ Ht0]]]]]]].
  cbn [vars trace init_machine app] in Hv0, Ht0.
  pose proof (dialed_vars_lengths_init argv a0 (o_socket o 0)) as [Ld Ls].
  apply dial_ret in H1; [| rewrite Hv0, Ld; lia | rewrite Hv0, Ls; lia].
  destruct H1 as [a1 [_ [Hr1 [_ [_ [Hv1 [_ Ht1]]]]]]].
  apply after_dials_ret in H2. destruct H2 as [Hv [_ Ht]].
  exists a0, a1. split; [exact Hr0|]. split; [exact Hr1|].
  split; [|split].
  - assert (Hfree : without_fork (trace m2) = trace m2).
    { rewrite Ht1, Ht0. unfold without_fork.
      destruct (o_connect o 0), (o_connect o 1); reflexivity. }
    assert (Htr : trace m2 =
                  dial_events o argv 0 a0 ++ dial_events o argv 1 a1)
      by (rewrite Ht1, Ht0; reflexivity).
    destruct Ht as [[_ Ht] | [_ [_ [_ Ht]]]]; rewrite Ht.
    + rewrite Hfree. exact Htr.
    + rewrite without_fork_app, Hfree, Htr.
      change (without_fork [EvFork (o_fork o); EvSetsid]) with (@nil event).
      apply app_nil_r.
  - rewrite Hv, Hv1, Hv0. reflexivity.
  - rewrite Hv, Hv1, Hv0. reflexivity.
Qed.

Lemma endpoints_dialled_as_given_witness :
  exists a0 a1,
    without_fork
      (trace (machine_of (main_of Datapipe o_relay sample_argv 0))) =
    dial_events o_relay sample_argv 0 a0 ++
    dial_events o_relay sample_argv 1 a1.
Proof.
  destruct (endpoints_dialled_as_given Datapipe o_relay sample_argv
              (machine_of (main_of Datapipe o_relay sample_argv 0))
              ltac:(vm_compute; reflexivity))
    as [a0 [a1 [_ [_ [H _]]]]].
  exists a0, a1. exact H.
Defined.

Lemma dial_exit_status p o argv i m c m' :
  (i < length (dest (vars m)))%nat ->
  (i < length (sockfd (vars m)))%nat ->
  dial_of p o argv i m = Exit c m' ->
  c = status_port p \/ c = status_host p \/ c = status_socket p.
Proof.
  intros Hd Hs H. pose proof (dial_dialed p o argv i m Hd Hs) as D.
  rewrite H in D. inversion D; auto.
Qed.

(** X5: the values [main] can return.  revdatapipe.c returns -1 and
    nothing else, so never 0; datapipe.c returns 30, 25, -1, 20 or 0, the
    20 only when the fork failed and the 0 only in the parent of the
    fork. *)
Theorem exit_statuses (p : variant) (o : oracle) (argv : list string)
    (n : nat) (c : Z) (m : machine) :
  main_of p o argv n = Exit c m ->
  match p with
  | RevDatapipe => c = -1
  | Datapipe =>
      (c = 30 \/ c = 25 \/ c = -1 \/ c = 20 \/ c = 0) /\
      (c = 20 -> o_fork o = -1) /\
      (c = 0 -> 0 < o_fork o)
  end.
Proof.
  revert c m. induction n as [|n IH]; intros c m H.
  - rewrite main_zero, setup_eq in H.
    destruct (5 =? argc argv).
    2:{ injection H as <- _. destruct p; [reflexivity|].
        split; [auto|]. split; discriminate. }
    destruct (dial_of p o argv 0 (init_machine o))
      as [[] m1|c1 m1|s1 m1] eqn:E0; [ | | discriminate ].
    2:{ injection H as <- _.
        apply dial_exit_status in E0; [| cbn; lia | cbn; lia].
        destruct p; cbn in E0; [intuition congruence|].
        split; [intuition congruence|].
        split; intros ->; intuition discriminate. }
    pose proof E0 as E0'.
    apply dial_ret in E0'; [| cbn; lia | cbn; lia].
    destruct E0' as [a0 [_ [_ [_ [_ [Hv0 _]]]]]].
    cbn [vars init_machine] in Hv0.
    pose proof (dialed_vars_lengths_init argv a0 (o_socket o 0)) as [Ld Ls].
    destruct (dial_of p o argv 1 m1) as [[] m2|c2 m2|s2 m2] eqn:E1;
      [ | | discriminate ].
    2:{ injection H as <- _.
        apply dial_exit_status in E1;
          [| rewrite Hv0, Ld; lia | rewrite Hv0, Ls; lia].
        destruct p; cbn in E1; [intuition congruence|].
        split; [intuition congruence|].
        split; intros ->; intuition discriminate. }
    destruct p; cbn [after_dials] in H; [discriminate|].
    destruct (o_fork o =? -1) eqn:F1.
    { injection H as <- _. apply Z.eqb_eq in F1.
      split; [auto|]. split; [auto | discriminate]. }
    destruct (o_fork o >? 0) eqn:F2; [|discriminate].
    injection H as <- _. rewrite Z.gtb_ltb in F2. apply Z.ltb_lt in F2.
    split; [auto 6|]. split; [discriminate | auto].
  - rewrite main_succ in H.
    destruct (main_of p o argv n) as [[] m0|c0 m0|s0 m0] eqn:E;
      [ | | discriminate ].
    + apply turn_exit_inv in H. destruct H as [-> _].
      destruct p; cbn; [reflexivity|].
      split; [auto|]. split; discriminate.
    + injection H as <- <-. apply (IH c0 m0). reflexivity.
Qed.

Lemma exit_statuses_witness :
  exists c m,
    main_of RevDatapipe o_eof sample_argv 2 = Exit c m /\ c = -1.
Proof.
  exists (-1), (machine_of (main_of RevDatapipe o_eof sample_argv 2)).
  assert (H : main_of RevDatapipe o_eof sample_argv 2 =
              Exit (-1) (machine_of (main_of RevDatapipe o_eof sample_argv 2)))
    by (vm_compute; reflexivity).
  split; [exact H|].
  exact (exit_statuses RevDatapipe o_eof sample_argv 2 (-1) _ H).
Defined.

(* ===================================================================== *)
(** ** The port on the wire                                               *)
(* ===================================================================== *)

Lemma all_from_spec (n : nat) (x : Z) (P : Z -> bool) :
  all_from n x P = true ->
  forall y, x <= y < x + Z.of_nat n -> P y = true.
Proof.
  revert x. induction n as [|n IH]; intros x H y Hy; [lia|].
  cbn [all_from] in H. apply andb_true_iff in H. destruct H as [Hx Hr].
  destruct (Z.eq_dec y x) as [->|Hne]; [exact Hx|].
  apply (IH (x + 1)); [exact Hr | lia].
Qed.

Lemma htons_checked :
  all_from (Z.to_nat 65536) 0
    (fun x => (htons (htons x) =? x) && (0 <=? htons x) &&
              (htons x <? 65536)) = true.
Proof. vm_compute. reflexivity. Qed.

Lemma htons_16 (x : Z) :
  0 <= x < 65536 -> htons (htons x) = x /\ 0 <= htons x < 65536.
Proof.
  intros Hx.
  assert (Hx' : 0 <= x < 0 + Z.of_nat (Z.to_nat 65536))
    by (rewrite Z2Nat.id; lia).
  pose proof (all_from_spec _ _ _ htons_checked x Hx') as H.
  cbv beta in H. apply andb_true_iff in H. destruct H as [H H3].
  apply andb_true_iff in H. destruct H as [H1 H2].
  apply Z.eqb_eq in H1. apply Z.leb_le in H2. apply Z.ltb_lt in H3. auto.
Qed.

(** X6: the port stored in [dest[i].sin_port] is a 16-bit value, and
    swapping its bytes back gives [atol(argv[2 + 2i])] modulo 65536: the
    port dialled is the argument reduced to 16 bits, so two arguments that
    agree modulo 65536 dial the same port. *)
Theorem port_is_low_16_bits (argv argv' : list string) (i : nat) :
  0 <= port_of argv i < 65536 /\
  htons (port_of argv i) = atol (arg argv (2 + i * 2)) mod 65536 /\
  (atol (arg argv (2 + i * 2)) mod 65536 =
   atol (arg argv' (2 + i * 2)) mod 65536 <->
   port_of argv i = port_of argv' i).
Proof.
  assert (Hr : forall a : list string,
             0 <= atol (arg a (2 + i * 2)) mod 65536 < 65536)
    by (intros a; apply Z.mod_pos_bound; lia).
  unfold port_of, to_ushort.
  destruct (htons_16 _ (Hr argv)) as [Hinv Hrange].
  split; [exact Hrange|]. split; [exact Hinv|].
  split; [intros ->; reflexivity|].
  intros E. destruct (htons_16 _ (Hr argv')) as [Hinv' _].
  rewrite <- Hinv, <- Hinv', E. reflexivity.
Qed.

(** The port fields that setup leaves in [dest] are those computed from the
    command line. *)
Lemma setup_dest p o argv m :
  setup_of p o argv (init_machine o) = Ret tt m ->
  forall i, side i ->
    sin_family (dst i (vars m)) = AF_INET /\
    sin_port (dst i (vars m)) = port_of argv i.
Proof.
  intros Hrun.
  apply setup_entered in Hrun. destruct Hrun as [_ [m1 [m2 [H0 [H1 H2]]]]].
  apply dial_ret in H0; [| cbn; lia | cbn; lia].
  destruct H0 as [a0 [_ [_ [_ [_ [Hv0 _]]]]]].
  cbn [vars init_machine] in Hv0.
  pose proof (dialed_vars_lengths_init argv a0 (o_socket o 0)) as [Ld Ls].
  apply dial_ret in H1; [| rewrite Hv0, Ld; lia | rewrite Hv0, Ls; lia].
  destruct H1 as [a1 [_ [_ [_ [_ [Hv1 _]]]]]].
  apply after_dials_ret in H2. destruct H2 as [Hv _].
  intros i [-> | ->]; rewrite Hv, Hv1, Hv0; split; reflexivity.
Qed.

(** The message of the port test is printed by a dial exactly when the
    port computed from the argument is zero. *)
Lemma dial_port_message p o argv i m :
  (i < length (dest (vars m)))%nat ->
  (i < length (sockfd (vars m)))%nat ->
  In (EvStderr "invalid target port")
    (emitted m (machine_of (dial_of p o argv i m))) <->
  port_of argv i = 0.
Proof.
  intros Hd Hs. pose proof (dial_dialed p o argv i m Hd Hs) as D.
  inversion D as [Hp0 E | Hp0 Hr0 E | a' Hp0 Hr0 Hbad E
                 | a' Hp0 Hr0 Hs0 Hm0 Hc E | a' Hp0 Hr0 Hs0 Hm0 Hc E];
    clear D; rewrite <- ?E; cbn [machine_of];
    (erewrite emitted_app by reflexivity); cbn [In];
    split; intros H; try congruence; auto;
    repeat match goal with
           | H : _ \/ _ |- _ => destruct H as [H | H]
           end;
    try discriminate; contradiction.
Qed.

(** A run in which some port is zero returns during setup, at the first
    check that fails. *)
Lemma bad_port_exits p o argv i :
  side i -> port_of argv i = 0 ->
  exists c m,
    main_of p o argv 0 = Exit c m /\
    (c = status_usage p \/ c = status_port p \/ c = status_host p \/
     c = status_socket p).
Proof.
  intros Hi Hz. rewrite main_zero, setup_eq.
  destruct (5 =? argc argv); [|eauto 6].
  destruct (dial_of p o argv 0 (init_machine o)) as [[] m1|c1 m1|s1 m1] eqn:E0.
  - pose proof E0 as E0'.
    apply dial_ret in E0'; [| cbn; lia | cbn; lia].
    destruct E0' as [a0 [Hp0 [_ [_ [_ [Hv0 _]]]]]].
    cbn [vars init_machine] in Hv0.
    pose proof (dialed_vars_lengths_init argv a0 (o_socket o 0)) as [Ld Ls].
    destruct (dial_of p o argv 1 m1) as [[] m2|c2 m2|s2 m2] eqn:E1.
    + exfalso. apply dial_ret in E1; [| rewrite Hv0, Ld; lia
                                       | rewrite Hv0, Ls; lia].
      destruct E1 as [a1 [Hp1 _]]. destruct Hi as [-> | ->]; auto.
    + apply dial_exit_status in E1; [| rewrite Hv0, Ld; lia
                                     | rewrite Hv0, Ls; lia].
      exists c2, m2. split; [reflexivity | tauto].
    + exfalso. apply dial_alive in E1; [contradiction | rewrite Hv0, Ld; lia
                                        | rewrite Hv0, Ls; lia].
  - apply dial_exit_status in E0; [| cbn; lia | cbn; lia].
    exists c1, m1. split; [reflexivity | tauto].
  - exfalso. apply dial_alive in E0; [contradiction | cbn; lia | cbn; lia].
Qed.

(** C6, as the code has it.  The port test looks at the low 16 bits of
    the [atol] value of the argument: a dial prints "invalid target port"
    exactly when they are zero, and then returns at once.  When the run
    gets to the port test of an endpoint (five arguments and, for the
    second endpoint, a first dial that ended without a [return]) and that
    port is zero, [main] returns there, with -1 in revdatapipe.c and 25 in
    datapipe.c; in any case a zero port keeps [main] out of the loop: it
    returns during setup with the nonzero status of the first check that
    fails.  The loop is reached only when both arguments are nonzero modulo
    65536, and the port dialled is then the argument modulo 65536, in
    network order. *)
Theorem port_rejected_iff_low_bits_zero (p : variant) (o : oracle)
    (argv : list string) :
  (forall i,
     port_of argv i = 0 <-> atol (arg argv (2 + i * 2)) mod 65536 = 0) /\
  (forall i m,
     (i < length (dest (vars m)))%nat ->
     (i < length (sockfd (vars m)))%nat ->
     (In (EvStderr "invalid target port")
        (emitted m (machine_of (dial_of p o argv i m))) <->
      atol (arg argv (2 + i * 2)) mod 65536 = 0) /\
     (port_of argv i = 0 ->
      dial_of p o argv i m =
      Exit (status_port p)
        (mk_machine (set_dest i (mk_sockaddr AF_INET 0 0) (vars m)) (fds m)
           (trace m ++ [EvStderr "invalid target port"])))) /\
  (forall i m n,
     dial_start p o argv i m -> port_of argv i = 0 ->
     main_of p o argv n =
     Exit (status_port p)
       (mk_machine (set_dest i (mk_sockaddr AF_INET 0 0) (vars m)) (fds m)
          (trace m ++ [EvStderr "invalid target port"]))) /\
  (forall i n,
     side i -> port_of argv i = 0 ->
     exists c m, main_of p o argv 0 = Exit c m /\
                 main_of p o argv n = Exit c m /\
                 (c = status_usage p \/ c = status_port p \/
                  c = status_host p \/ c = status_socket p) /\
                 c <> 0) /\
  (forall m,
     main_of p o argv 0 = Ret tt m ->
     forall i, side i ->
       1 <= atol (arg argv (2 + i * 2)) mod 65536 <= 65535 /\
       sin_port (dst i (vars m)) =
         htons (atol (arg argv (2 + i * 2)) mod 65536) /\
       htons (sin_port (dst i (vars m))) =
         atol (arg argv (2 + i * 2)) mod 65536) /\
  status_port RevDatapipe = -1 /\ status_port Datapipe = 25.
Proof.
  split; [intros i; apply port_of_zero|].
  split.
  { intros i m Hd Hs. split.
    - rewrite <- port_of_zero. apply dial_port_message; assumption.
    - apply dial_bad_port; assumption. }
  split.
  { intros i m n [Hargc Hstart] Hz.
    apply (main_exit_stable p o argv 0); [|lia].
    rewrite main_zero, setup_eq, Hargc. cbn [Z.eqb Pos.eqb].
    destruct i as [|[|i]]; [ | | contradiction ].
    - subst m. rewrite dial_bad_port by (try assumption; cbn; lia).
      reflexivity.
    - rewrite Hstart.
      apply dial_ret in Hstart; [| cbn; lia | cbn; lia].
      destruct Hstart as [a0 [_ [_ [_ [_ [Hv0 _]]]]]].
      cbn [vars init_machine] in Hv0.
      pose proof (dialed_vars_lengths_init argv a0 (o_socket o 0)) as [Ld Ls].
      rewrite dial_bad_port by (try assumption; rewrite Hv0, ?Ld, ?Ls; lia).
      reflexivity. }
  split.
  { intros i n Hi Hz.
    destruct (bad_port_exits p o argv i Hi Hz) as [c [m [E Hc]]].
    exists c, m. split; [exact E|].
    split; [apply (main_exit_stable p o argv 0 c m E); lia|].
    split; [exact Hc|].
    destruct p; cbn in Hc; lia. }
  split; [|split; reflexivity].
  intros m E i Hi.
  pose proof E as Hpass. apply entered_passes in Hpass.
  destruct Hpass as [_ [Hend _]]. destruct (Hend i Hi) as [Hp _].
  rewrite main_zero in E.
  destruct (setup_dest p o argv m E i Hi) as [_ Hport].
  assert (Hr : 0 <= atol (arg argv (2 + i * 2)) mod 65536 < 65536)
    by (apply Z.mod_pos_bound; lia).
  destruct (htons_16 _ Hr) as [Hinv _].
  assert (Hnz : atol (arg argv (2 + i * 2)) mod 65536 <> 0)
    by (intros Hz; apply Hp; apply port_of_zero; exact Hz).
  split; [lia|]. rewrite Hport. unfold port_of, to_ushort.
  split; [reflexivity | exact Hinv].
Qed.

Lemma port_rejected_iff_low_bits_zero_witness :
  port_of argv_port0 0 = 0 /\
  main_of Datapipe o_relay argv_port0 7 =
  Exit (status_port Datapipe)
    (mk_machine
       (set_dest 0 (mk_sockaddr AF_INET 0 0) (vars (init_machine o_relay)))
       (fds (init_machine o_relay))
       (trace (init_machine o_relay) ++ [EvStderr "invalid target port"])).
Proof.
  assert (Hz : port_of argv_port0 0 = 0) by (vm_compute; reflexivity).
  split; [exact Hz|].
  destruct (port_rejected_iff_low_bits_zero Datapipe o_relay argv_port0)
    as [_ [_ [Hexit _]]].
  apply (Hexit 0%nat (init_machine o_relay) 7%nat); [|exact Hz].
  split; reflexivity.
Defined.

(** C6 as stated fails: 65537 is outside 1..65535, yet it passes the port
    test (as port 1) and the loop is entered; and where datapipe.c does
    reject a port, it returns 25, not -1. *)
Lemma port_65537_reaches_loop :
  atol (arg argv_65537 2) = 65537 /\
  ~ (1 <= atol (arg argv_65537 2) <= 65535) /\
  (exists m,
     main_of RevDatapipe o_relay argv_65537 0 = Ret tt m /\
     sin_port (dst 0 (vars m)) = htons 1) /\
  (exists m, main_of Datapipe o_relay argv_port0 0 = Exit 25 m).
Proof.
  split; [vm_compute; reflexivity|].
  split; [vm_compute; intros [_ H]; apply H; reflexivity|].
  split.
  - exists (machine_of (main_of RevDatapipe o_relay argv_65537 0)).
    split; vm_compute; reflexivity.
  - exists (machine_of (main_of Datapipe o_relay argv_port0 0)).
    vm_compute; reflexivity.
Qed.

(* ===================================================================== *)
(** ** Further properties of the loop                                     *)
(* ===================================================================== *)

Lemma main_maxsock p o argv n m :
  main_of p o argv n = Ret tt m ->
  maxsock (vars m) = Z.max (o_socket o 0) (o_socket o 1) /\
  0 <= o_socket o 0 /\ 0 <= o_socket o 1.
Proof.
  revert m. induction n as [|n IH]; intros m H.
  - rewrite main_zero in H. apply setup_sockets in H.
    destruct H as [_ [_ [Em [H0 [H1 _]]]]]. rewrite Em. lia.
  - rewrite main_succ in H.
    destruct (main_of p o argv n) as [[] m0|c m0|s m0]; try discriminate.
    destruct (IH m0 eq_refl) as [Em Hpos].
    apply turn_frame in H. destruct H as [_ [_ [Em' _]]].
    rewrite Em'. auto.
Qed.

Lemma nodup_length_le (l : list Z) :
  (length (nodup Z.eq_dec l) <= length l)%nat.
Proof.
  induction l as [|a l IH]; cbn [nodup length]; [lia|].
  destruct (in_dec Z.eq_dec a l); cbn [length]; lia.
Qed.

Lemma polled_range o k m : -1 <= fst (polled o k m) <= 2.
Proof.
  unfold polled, select_answer.
  destruct (forallb _ _ && negb (sel_err (o_select o k))); cbn [fst]; [|lia].
  pose proof (nodup_length_le
                (filter (fun fd => mem fd (sel_ready (o_select o k)))
                   (filter (fun fd => (0 <=? fd) &&
                                      (fd <? maxsock (vars m) + 1))
                      (watched (vars m))))) as H1.
  pose proof (filter_length_le
                (fun fd => mem fd (sel_ready (o_select o k)))
                (filter (fun fd => (0 <=? fd) &&
                                   (fd <? maxsock (vars m) + 1))
                   (watched (vars m)))) as H2.
  pose proof (filter_length_le
                (fun fd => (0 <=? fd) && (fd <? maxsock (vars m) + 1))
                (watched (vars m))) as H3.
  change (length (watched (vars m))) with 2%nat in H3. lia.
Qed.

(** X7: every turn starts with one [select], and issues no other, on the
    set of the two descriptors that the two [socket] calls returned, with
    a bound one above the larger of them, so that both are examined; it
    returns -1, 0, 1 or 2. *)
Theorem select_watches_both (p : variant) (o : oracle) (argv : list string)
    (k : nat) (m : machine) :
  main_of p o argv k = Ret tt m ->
  exists r rest,
    turn_events p o k m =
      EvSelect (Z.max (o_socket o 0) (o_socket o 1) + 1)
        [o_socket o 1; o_socket o 0] r :: rest /\
    -1 <= r <= 2 /\
    (forall nfds set r', ~ In (EvSelect nfds set r') rest) /\
    0 <= o_socket o 0 < Z.max (o_socket o 0) (o_socket o 1) + 1 /\
    0 <= o_socket o 1 < Z.max (o_socket o 0) (o_socket o 1) + 1.
Proof.
  intros Hrun.
  destruct (main_maxsock _ _ _ _ _ Hrun) as [Em [H0 H1]].
  destruct (main_sockets _ _ _ _ _ Hrun) as [E0 E1].
  assert (Hsel : EvPoll o k m =
                  EvSelect (Z.max (o_socket o 0) (o_socket o 1) + 1)
                    [o_socket o 1; o_socket o 0] (fst (polled o k m)))
    by (unfold EvPoll, watched, FD_SET, FD_ZERO; rewrite Em, E0, E1;
        reflexivity).
  exists (fst (polled o k m)).
  pose proof (polled_range o k m) as Hr.
  turn_cases p o k m; rewrite Hev, Hsel; eexists;
    (split; [reflexivity|]); (split; [exact Hr|]);
    (split; [|lia]); intros nf st r' Hin.
  - destruct Hin.
  - destruct Hin.
  - destruct Hin as [H|[H|[H|[]]]]; discriminate.
  - destruct (w <=? 0);
      [destruct Hin as [H|[H|[H|[H|[]]]]] | destruct Hin as [H|[H|[]]]];
      discriminate.
  - destruct Hin as [H|[H|[]]]; discriminate.
Qed.

Lemma select_watches_both_witness :
  exists r rest,
    turn_events RevDatapipe o_relay 2
      (machine_of (main_of RevDatapipe o_relay sample_argv 2)) =
    EvSelect (Z.max (o_socket o_relay 0) (o_socket o_relay 1) + 1)
      [o_socket o_relay 1; o_socket o_relay 0] r :: rest.
Proof.
  destruct (select_watches_both RevDatapipe o_relay sample_argv 2
              (machine_of (main_of RevDatapipe o_relay sample_argv 2))
              ltac:(vm_compute; reflexivity))
    as [r [rest [H _]]].
  exists r, rest. exact H.
Defined.



(* ===================================================================== *)
(** ** Whole runs                                                         *)
(* ===================================================================== *)

Lemma turn_trace p o k m :
  trace (machine_of (iteration_of p o k m)) = trace m ++ turn_events p o k m.
Proof.
  turn_cases p o k m; rewrite Hev; rewrite <- ?E; reflexivity.
Qed.

Lemma received_from_app fd t u :
  received_from fd (t ++ u) = received_from fd t ++ received_from fd u.
Proof. apply flat_map_app. Qed.

Lemma delivered_to_app fd t u :
  delivered_to fd (t ++ u) = delivered_to fd t ++ delivered_to fd u.
Proof. apply flat_map_app. Qed.

Lemma no_io_silent fd t :
  no_io t -> received_from fd t = [] /\ delivered_to fd t = [].
Proof.
  induction t as [|e t IH]; intros H; [split; reflexivity|].
  destruct IH as [IHr IHd].
  { intros e' Hin. apply H. right. exact Hin. }
  destruct (H e (or_introl eq_refl)) as [Hr Hs].
  cbn [received_from delivered_to flat_map].
  fold (received_from fd t). fold (delivered_to fd t).
  rewrite IHr, IHd. destruct e; try discriminate; split; reflexivity.
Qed.

Lemma no_io_app t u : no_io t -> no_io u -> no_io (t ++ u).
Proof.
  intros Ht Hu e Hin. apply in_app_or in Hin.
  destruct Hin; [apply Ht | apply Hu]; assumption.
Qed.

Lemma no_io_list (t : list event) :
  forallb (fun e => negb (is_recv e) && negb (is_send e)) t = true ->
  no_io t.
Proof.
  intros H e Hin. rewrite forallb_forall in H. specialize (H e Hin).
  apply andb_true_iff in H. destruct H as [H1 H2].
  apply negb_true_iff in H1. apply negb_true_iff in H2. auto.
Qed.

Lemma dial_no_io p o argv i m :
  (i < length (dest (vars m)))%nat ->
  (i < length (sockfd (vars m)))%nat ->
  no_io (trace m) ->
  no_io (trace (machine_of (dial_of p o argv i m))).
Proof.
  intros Hd Hs Ht. pose proof (dial_dialed p o argv i m Hd Hs) as D.
  inversion D; cbn [machine_of trace]; apply no_io_app; try exact Ht;
    apply no_io_list; reflexivity.
Qed.

(** Setup neither reads nor writes a connection. *)
Lemma setup_no_io p o argv :
  no_io (trace (machine_of (setup_of p o argv (init_machine o)))).
Proof.
  rewrite setup_eq. destruct (5 =? argc argv).
  2:{ apply no_io_list. reflexivity. }
  pose proof (dial_no_io p o argv 0 (init_machine o)
                ltac:(cbn; lia) ltac:(cbn; lia)
                ltac:(apply no_io_list; reflexivity)) as N0.
  destruct (dial_of p o argv 0 (init_machine o)) as [[] m1|c1 m1|s1 m1] eqn:E0;
    [ | exact N0 | exact N0 ].
  cbn [machine_of] in N0.
  apply dial_ret in E0; [| cbn; lia | cbn; lia].
  destruct E0 as [a0 [_ [_ [_ [_ [Hv0 _]]]]]].
  cbn [vars init_machine] in Hv0.
  pose proof (dialed_vars_lengths_init argv a0 (o_socket o 0)) as [Ld Ls].
  pose proof (dial_no_io p o argv 1 m1
                ltac:(rewrite Hv0, Ld; lia) ltac:(rewrite Hv0, Ls; lia) N0)
    as N1.
  destruct (dial_of p o argv 1 m1) as [[] m2|c2 m2|s2 m2];
    [ | exact N1 | exact N1 ].
  cbn [machine_of] in N1.
  destruct p; cbn [after_dials]; [exact N1|].
  destruct (o_fork o =? -1); [|destruct (o_fork o >? 0)];
    cbn [machine_of trace]; apply no_io_app; try exact N1;
    apply no_io_list; reflexivity.
Qed.

(** One turn between two distinct descriptors, all of whose writes are
    complete, delivers to each side what it read from the other. *)
Lemma turn_fidelity p o k m :
  sock 0 (vars m) <> sock 1 (vars m) ->
  complete_writes (turn_events p o k m) ->
  delivered_to (sock 1 (vars m)) (turn_events p o k m) =
    received_from (sock 0 (vars m)) (turn_events p o k m) /\
  delivered_to (sock 0 (vars m)) (turn_events p o k m) =
    received_from (sock 1 (vars m)) (turn_events p o k m).
Proof.
  intros Hdiff. turn_cases p o k m; rewrite Hev; intros Hc;
    try (split; reflexivity).
  - cbn [received_from delivered_to flat_map app closes].
    destruct (sock i (vars m) =? sock 0 (vars m)),
             (sock i (vars m) =? sock 1 (vars m)); split; reflexivity.
  - assert (Hwd : w = Z.of_nat (length d)).
    { apply (proj1 Hc (sock (other i) (vars m)) d w). cbn. auto. }
    assert (Hall : firstn (Z.to_nat w) d = d)
      by (rewrite Hwd, Nat2Z.id; apply firstn_all).
    assert (E01 : (sock 0 (vars m) =? sock 1 (vars m)) = false)
      by (apply Z.eqb_neq; exact Hdiff).
    assert (E10 : (sock 1 (vars m) =? sock 0 (vars m)) = false)
      by (apply Z.eqb_neq; congruence).
    destruct (w <=? 0);
      destruct Hside as [-> | ->];
      cbn [received_from delivered_to flat_map app closes other Nat.sub
           EvPoll];
      rewrite ?Z.eqb_refl, ?E01, ?E10, ?Hall, ?app_nil_r;
      split; reflexivity.
  - exfalso. apply (proj2 Hc (sock (other i) (vars m)) d). cbn. auto.
Qed.

Lemma complete_writes_app t u :
  complete_writes (t ++ u) -> complete_writes t /\ complete_writes u.
Proof.
  intros [H1 H2]. split; split.
  - intros fd pl w Hin. apply (H1 fd pl w). apply in_or_app. auto.
  - intros fd pl Hin. apply (H2 fd pl). apply in_or_app. auto.
  - intros fd pl w Hin. apply (H1 fd pl w). apply in_or_app. auto.
  - intros fd pl Hin. apply (H2 fd pl). apply in_or_app. auto.
Qed.

(** X9: over a whole run, after a first connect that succeeded, if every
    write took all the bytes it was offered then the bytes delivered to
    the second connection are exactly the bytes read from the first, in
    order, and the bytes delivered to the first are exactly those read
    from the second. *)
Theorem relay_fidelity (p : variant) (o : oracle) (argv : list string)
    (n : nat) :
  o_connect o 0 = true ->
  let t := trace (machine_of (main_of p o argv n)) in
  complete_writes t ->
  delivered_to (o_socket o 1) t = received_from (o_socket o 0) t /\
  delivered_to (o_socket o 0) t = received_from (o_socket o 1) t.
Proof.
  intros Hc0. cbv zeta. induction n as [|n IH].
  - intros _. rewrite main_zero.
    pose proof (setup_no_io p o argv) as N.
    destruct (no_io_silent (o_socket o 0) _ N) as [-> ->].
    destruct (no_io_silent (o_socket o 1) _ N) as [-> ->].
    split; reflexivity.
  - rewrite main_succ.
    destruct (main_of p o argv n) as [[] m|c m|s m] eqn:Hrun;
      [ | exact IH | exact IH ].
    cbn [machine_of] in IH. rewrite turn_trace. intros Hcw.
    apply complete_writes_app in Hcw. destruct Hcw as [Hc1 Hc2].
    destruct (IH Hc1) as [IH1 IH0].
    destruct (main_sockets _ _ _ _ _ Hrun) as [E0 E1].
    assert (Hne : sock 0 (vars m) <> sock 1 (vars m)).
    { destruct (main_running_before _ _ _ _ _ Hrun 0%nat ltac:(lia))
        as [m0 H0].
      rewrite main_zero in H0. apply setup_sockets in H0.
      destruct H0 as [_ [_ [_ [_ [_ [_ [_ [_ [_ [_ Hm]]]]]]]]]].
      rewrite Hc0 in Hm. cbn [app mem existsb] in Hm.
      apply orb_false_iff in Hm. destruct Hm as [Hm _].
      apply Z.eqb_neq in Hm. rewrite E0, E1. congruence. }
    destruct (turn_fidelity p o n m Hne Hc2) as [T1 T0].
    rewrite E0, E1 in T1, T0.
    rewrite !delivered_to_app, !received_from_app, IH1, IH0, T1, T0.
    split; reflexivity.
Qed.

Lemma complete_writesb_spec (t : list event) :
  complete_writesb t = true -> complete_writes t.
Proof.
  intros H. unfold complete_writesb in H. rewrite forallb_forall in H.
  split.
  - intros fd pl w Hin. specialize (H _ Hin). cbv beta iota in H.
    apply Z.eqb_eq in H. exact H.
  - intros fd pl Hin. specialize (H _ Hin). discriminate.
Qed.

Lemma relay_fidelity_witness :
  delivered_to (o_socket o_relay 1)
    (trace (machine_of (main_of RevDatapipe o_relay sample_argv 3))) =
  received_from (o_socket o_relay 0)
    (trace (machine_of (main_of RevDatapipe o_relay sample_argv 3))).
Proof.
  assert (Hc : complete_writesb
                 (trace (machine_of
                           (main_of RevDatapipe o_relay sample_argv 3)))
               = true) by (vm_compute; reflexivity).
  destruct (relay_fidelity RevDatapipe o_relay sample_argv 3 eq_refl
              (complete_writesb_spec _ Hc)) as [H _].
  exact H.
Defined.

(** X10: a refused connect whose descriptor is not handed out again ends
    the run at the first [select]: when the second connect fails, or the
    first fails and the second socket gets another descriptor, that
    [select] is given a closed descriptor, fails, and [main] returns with
    the status of that statement, having read and written nothing. *)
Theorem refused_connect_ends_at_first_select (p : variant) (o : oracle)
    (argv : list string) (m0 : machine) (n : nat) :
  main_of p o argv 0 = Ret tt m0 ->
  o_connect o 1 = false \/
  (o_connect o 0 = false /\ o_socket o 1 <> o_socket o 0) ->
  main_of p o argv (S n) =
  Exit (status_select p)
    (mk_machine (vars m0) (fds m0)
       (trace m0 ++
        [EvSelect (maxsock (vars m0) + 1) (watched (vars m0)) (-1)])) /\
  no_io (trace (machine_of (main_of p o argv (S n)))).
Proof.
  intros Hrun Hcase.
  pose proof (main_inv _ _ _ _ _ Hrun) as Hinv.
  pose proof Hrun as Hs. rewrite main_zero in Hs.
  pose proof (setup_no_io p o argv) as Hno. rewrite Hs in Hno.
  cbn [machine_of] in Hno.
  apply setup_sockets in Hs.
  destruct Hs as [E0 [E1 [_ [_ [_ [_ [_ [_ [Hf [Hm0 Hm1]]]]]]]]]].
  assert (Hclosed : exists i, side i /\
                              mem (sock i (vars m0)) (fds m0) = false).
  { destruct Hcase as [Hc1 | [Hc0 Hdiff]].
    - exists 1%nat. split; [right; reflexivity|].
      rewrite E1, Hf, Hc1. exact Hm1.
    - exists 0%nat. split; [left; reflexivity|].
      rewrite E0, Hf, Hc0. cbn [app].
      destruct (o_connect o 1); cbn [app]; [|exact Hm0].
      cbn [mem existsb]. apply orb_false_iff. split; [|exact Hm0].
      apply Z.eqb_neq. congruence. }
  destruct Hclosed as [i [Hi Hc]].
  pose proof (polled_closed o 0 m0 i Hinv Hi Hc) as Hp.
  assert (Hfirst : main_of p o argv 1 =
                   Exit (status_select p)
                     (mk_machine (vars m0) (fds m0)
                        (trace m0 ++
                         [EvSelect (maxsock (vars m0) + 1)
                            (watched (vars m0)) (-1)]))).
  { rewrite main_succ, Hrun.
    rewrite turn_poll_failed by (rewrite Hp; cbn; lia).
    unfold EvPoll. rewrite Hp. reflexivity. }
  rewrite (main_exit_stable p o argv 1 _ _ Hfirst (S n)) by lia.
  split; [reflexivity|]. cbn [machine_of trace].
  apply no_io_app; [exact Hno | apply no_io_list; reflexivity].
Qed.

Lemma refused_connect_ends_at_first_select_witness :
  exists m,
    main_of Datapipe o_second_refused sample_argv 5 =
    Exit (status_select Datapipe) m /\
    no_io (trace (machine_of (main_of Datapipe o_second_refused
                                 sample_argv 5))).
Proof.
  destruct (refused_connect_ends_at_first_select Datapipe o_second_refused
              sample_argv
              (machine_of (main_of Datapipe o_second_refused sample_argv 0))
              4 ltac:(vm_compute; reflexivity) (or_introl eq_refl))
    as [H N].
  eexists. split; [exact H | exact N].
Defined.

(** X11: the descriptor table of a run that entered the loop.  The
    descriptors the process started with are none of the two sockets and
    stay open all along; nothing is ever open but them and the two
    descriptors that [socket] returned; and the loop opens nothing: what
    is open after any number of turns was open when the loop was
    entered. *)
Theorem descriptors_bounded (p : variant) (o : oracle) (argv : list string)
    (m0 : machine) (n : nat) :
  main_of p o argv 0 = Ret tt m0 ->
  let m := machine_of (main_of p o argv n) in
  (forall fd, In fd (o_inherited o) ->
              fd <> o_socket o 0 /\ fd <> o_socket o 1 /\
              is_open fd m = true) /\
  (forall fd, is_open fd m = true ->
              is_open fd m0 = true /\
              (In fd (o_inherited o) \/
               fd = o_socket o 0 \/ fd = o_socket o 1)).
Proof.
  intros Hrun. cbv zeta.
  pose proof Hrun as Hs. rewrite main_zero in Hs. apply setup_sockets in Hs.
  destruct Hs as [_ [_ [_ [_ [_ [_ [_ [_ [Hf [Hm0 Hm1]]]]]]]]]].
  assert (Hstd1 : mem (o_socket o 1) (o_inherited o) = false).
  { destruct (o_connect o 0); cbn [app] in Hm1; [|exact Hm1].
    cbn [mem existsb] in Hm1. apply orb_false_iff in Hm1.
    destruct Hm1 as [_ Hm1]. exact Hm1. }
  assert (Hstd : forall fd, In fd (o_inherited o) ->
                            fd <> o_socket o 0 /\ fd <> o_socket o 1).
  { intros fd Hin. apply mem_true_iff in Hin.
    split; intros ->; congruence. }
  assert (Hgo : (forall fd, In fd (o_inherited o) ->
                   is_open fd (machine_of (main_of p o argv n)) = true) /\
                (forall fd,
                   is_open fd (machine_of (main_of p o argv n)) = true ->
                   is_open fd m0 = true)).
  { induction n as [|n IH].
    - rewrite Hrun. cbn [machine_of]. unfold is_open. rewrite Hf. split.
      + intros fd Hin. apply mem_true_iff. apply in_or_app. right.
        apply in_or_app. right. exact Hin.
      + auto.
    - rewrite main_succ.
      destruct (main_of p o argv n) as [[] m|c m|s m] eqn:Hn;
        [ | exact IH | exact IH ].
      cbn [machine_of] in IH. destruct IH as [IHs IHb].
      destruct (main_sockets _ _ _ _ _ Hn) as [E0 E1].
      destruct (iteration_of p o n m) as [[] m'|c m'|s m'] eqn:Hit.
      + cbn [machine_of]. apply turn_frame in Hit.
        destruct Hit as [_ [_ [_ [_ [_ Hfd]]]]]. unfold is_open in *.
        rewrite Hfd. destruct (closeneeded (vars m') =? 0); [auto|].
        unfold closed_both. rewrite E0, E1. split.
        * intros fd Hin. destruct (Hstd fd Hin) as [N0 N1].
          rewrite !mem_remove_other by assumption. apply IHs. exact Hin.
        * intros fd Hin. apply IHb. apply mem_true_iff in Hin.
          apply filter_In in Hin. destruct Hin as [Hin _].
          apply filter_In in Hin. destruct Hin as [Hin _].
          apply mem_true_iff. exact Hin.
      + cbn [machine_of]. apply turn_exit_inv in Hit.
        destruct Hit as [_ [_ ->]]. unfold is_open in *. cbn [fds]. auto.
      + cbn [machine_of].
        apply turn_killed_inv in Hit. destruct Hit as [_ [_ [_ [Hfd _]]]].
        unfold is_open in *. rewrite Hfd. auto. }
  destruct Hgo as [Hkeep Hsub]. split.
  - intros fd Hin. destruct (Hstd fd Hin) as [N0 N1].
    split; [exact N0|]. split; [exact N1|]. apply Hkeep. exact Hin.
  - intros fd Hopen. pose proof (Hsub fd Hopen) as H0.
    split; [exact H0|].
    unfold is_open in H0. rewrite Hf in H0. apply mem_true_iff in H0.
    apply in_app_or in H0. destruct H0 as [H0|H0].
    { destruct (o_connect o 1); [|destruct H0].
      destruct H0 as [<-|[]]. auto. }
    apply in_app_or in H0. destruct H0 as [H0|H0]; [|auto].
    destruct (o_connect o 0); [|destruct H0].
    destruct H0 as [<-|[]]. auto.
Qed.

Lemma descriptors_bounded_witness :
  is_open 1 (machine_of (main_of RevDatapipe o_stdin_closed sample_argv 2))
    = true /\
  is_open 2 (machine_of (main_of RevDatapipe o_stdin_closed sample_argv 2))
    = true /\
  o_socket o_stdin_closed 0 = 0 /\
  is_open 0 (machine_of (main_of RevDatapipe o_stdin_closed sample_argv 0))
    = true /\
  is_open 0 (machine_of (main_of RevDatapipe o_stdin_closed sample_argv 2))
    = false.
Proof.
  destruct (descriptors_bounded RevDatapipe o_stdin_closed sample_argv
              (machine_of (main_of RevDatapipe o_stdin_closed sample_argv 0))
              2 ltac:(vm_compute; reflexivity)) as [H _].
  split; [apply H; cbn; auto|].
  split; [apply H; cbn; auto|].
  split; [reflexivity|].
  split; vm_compute; reflexivity.
Defined.




